(** * GTrans-Favorites-to-Anki: the reconciliation pipeline, embedded

    A shallow embedding of [src/storage.py], [src/scraper.py],
    [src/gemini_client.py], [src/anki_client.py] and [src/main.py].
    Python sets of ids are [gset string]; JSON documents are values of
    [json]; code that raises returns a [result]; code that touches the
    ledger file, the favourites page or Anki threads a [World]. *)

From Stdlib Require Import ZArith Lia.
From stdpp Require Import base option list gmap strings sorting.

#[local] Set Warnings "-register-all".
Local Open Scope string_scope.
Local Open Scope list_scope.
Local Open Scope Z_scope.

(** ** Values shared by the modules *)

(** What [json.load] / [json.loads] produce. An object is kept as its
    key/value pairs; a lookup takes the first pair with the key. *)
Inductive json : Type :=
| JNull
| JBool (b : bool)
| JNum (n : Z)
| JStr (s : string)
| JList (l : list json)
| JObj (kvs : list (string * json)).

(** The exceptions the sources raise or catch. [IOError] is Python 3's
    alias of [OSError] and stands for its subclasses too
    ([PermissionError], [NotADirectoryError], ...); [PlaywrightError] is
    Playwright's [Error], with its [TimeoutError]. *)
Inductive exn : Type :=
| JSONDecodeError
| IOError
| UnicodeDecodeError
| AttributeError
| GoogleAPIError
| RequestException
| IndexError
| UnboundLocalError
| PlaywrightError
| RuntimeError (msg : string).

Inductive result (A : Type) : Type :=
| Ok (a : A)
| Raise (e : exn).
Arguments Ok {A} a.
Arguments Raise {A} e.

(** [try: body except ...: handler] on a pure computation. *)
Definition try_except {A} (body : result A) (handler : exn -> result A) : result A :=
  match body with
  | Ok a => Ok a
  | Raise e => handler e
  end.

Definition result_bind {A B} (r : result A) (k : A -> result B) : result B :=
  match r with
  | Ok a => k a
  | Raise e => Raise e
  end.

(** Python truthiness of a decoded JSON value ([not x] is its negation). *)
Definition truthy (j : json) : bool :=
  match j with
  | JNull => false
  | JBool b => b
  | JNum n => negb (n =? 0)
  | JStr s => negb (String.eqb s "")
  | JList l => match l with [] => false | _ => true end
  | JObj kvs => match kvs with [] => false | _ => true end
  end.

(** [d.get(key)] on a decoded object: [None] when the key is absent. *)
Fixpoint obj_lookup (key : string) (kvs : list (string * json)) : option json :=
  match kvs with
  | [] => None
  | (k, v) :: rest => if String.eqb k key then Some v else obj_lookup key rest
  end.

(** ** storage.py: the ledger file *)

Module storage.

(** What the ledger path holds, as [path.exists()], [path.open("r")] and
    [json.load] see it. *)
Inductive FileState : Type :=
| Absent                 (* no such file *)
| NoStat                 (* the path cannot be examined: stat fails with an
                            OSError that pathlib re-raises (EACCES,
                            ENAMETOOLONG, ...) *)
| Unreadable             (* exists, open("r") raises IOError *)
| Undecodable            (* opens, the bytes are not UTF-8 *)
| NotJson                (* opens, json.load raises JSONDecodeError *)
| Truncated              (* what a write that failed after open("w") leaves:
                            nothing, or a strict prefix of the JSON text *)
| Doc (j : json).        (* opens and parses to j *)

Record Disk : Type := mkDisk {
  parent_exists : bool;      (* the directory of the ledger path exists *)
  parent_creatable : bool;   (* mkdir(parents=True) can create it *)
  writable : bool;           (* the next write succeeds: path.open("w"),
                                json.dump (every id can be encoded as UTF-8,
                                the device takes the bytes) and the close *)
  torn : bool;               (* a write that fails does so after
                                path.open("w") has truncated the file *)
  file : FileState
}.

(** [path.exists()]: pathlib answers [False] for a missing file and
    re-raises the other errors of [stat]. *)
Definition path_exists (d : Disk) : result bool :=
  match file d with
  | Absent => Ok false
  | NoStat => Raise IOError
  | _ => Ok true
  end.

(** [with path.open("r", encoding="utf-8") as f: json.load(f)]. On a
    truncated file [json.load] raises (JSONDecodeError, or
    UnicodeDecodeError when the cut falls inside a character; [load_ids]
    treats both alike). *)
Definition open_and_load (f : FileState) : result json :=
  match f with
  | Absent => Raise IOError
  | NoStat => Raise IOError
  | Unreadable => Raise IOError
  | Undecodable => Raise UnicodeDecodeError
  | NotJson => Raise JSONDecodeError
  | Truncated => Raise JSONDecodeError
  | Doc j => Ok j
  end.

Section LoadIds.
(** [str(x)] for a decoded value that is not already a string
    (Python's own formatting of numbers, booleans, lists, ...). *)
Variable py_repr : json -> string.

Definition py_str (x : json) : string :=
  match x with
  | JStr s => s
  | _ => py_repr x
  end.

(** [load_ids]: the test [path.exists()] stands before the [try], so
    what it raises is the caller's. *)
Definition load_ids (d : Disk) : result (gset string) :=
  result_bind (path_exists d) (fun found =>
  if negb found then Ok ∅
  else
    try_except
      (result_bind (open_and_load (file d)) (fun data =>
         match data with
         | JList l => Ok (list_to_set (py_str <$> l))
         | _ => Ok ∅
         end))
      (fun e =>
         match e with
         | JSONDecodeError => Ok ∅
         | IOError => Ok ∅
         | _ => Ok ∅          (* except Exception *)
         end)).
End LoadIds.

(** [sorted(list(set(ids)))]: the elements of the set in code-point order. *)
Definition sorted_ids (ids : list string) : list string :=
  merge_sort String.le (elements (list_to_set ids : gset string)).

Definition with_parent (d : Disk) : Disk :=
  mkDisk true (parent_creatable d) (writable d) (torn d) (file d).

Definition with_file (d : Disk) (f : FileState) : Disk :=
  mkDisk (parent_exists d) (parent_creatable d) (writable d) (torn d) f.

(** [save_ids]: the [mkdir] stands before the [try], so its failure is
    the caller's; a failure of the write itself is logged and dropped
    ([except IOError], [except Exception]). [path.open("w")] and
    [json.dump] stand in the same [try]: a write that fails after the
    open leaves the file truncated. *)
Definition save_ids (ids : list string) (d : Disk) : result unit * Disk :=
  if parent_exists d || parent_creatable d then
    let d1 := with_parent d in
    if writable d1
    then (Ok tt, with_file d1 (Doc (JList (JStr <$> sorted_ids ids))))
    else if torn d1
    then (Ok tt, with_file d1 Truncated)
    else (Ok tt, d1)
  else (Raise IOError, d).

End storage.

(** ** config.py: the settings read from the environment *)

Module config.

Record Config : Type := mkConfig {
  GEMINI_API_KEY : string;
  ANKI_WORD_DECK_NAME : string;
  ANKI_SENTENCE_DECK_NAME : string;
  ANKI_WORD_NOTE_TYPE : string;
  ANKI_SENTENCE_NOTE_TYPE : string
}.

(** The values when no environment variable is set. *)
Definition defaults : Config :=
  mkConfig "" "Default" "Default" "Basic" "Basic".

End config.

(** ** scraper.py: the favourites page *)

Module scraper.

Record FavoriteItem : Type := mkFavoriteItem {
  text : string;
  translation : string;
  item_id : string
}.

(** One favourite element of the page: either reading it raises, or it
    yields the two inner texts, already stripped. *)
Inductive Row : Type :=
| RowError
| RowOk (row_text row_translation : string).

Record Source : Type := mkSource {
  reachable : bool;      (* the page loads and gets ready within the timeouts *)
  rows : list Row
}.

(** How the browser session of one Source call goes. The session is set
    up before the [try] of the call and closed in its [finally]; the
    [except] clauses take a screenshot before they return. *)
Inductive Session : Type :=
| Up               (* set up and closed; a screenshot can be taken *)
| NoScreenshot     (* set up and closed, but page.screenshot raises *)
| CloseFails       (* set up; a close of the finally clause raises *)
| Down.            (* sync_playwright, the launch, new_context or new_page
                      raises: the try is not entered *)

(** What the caller gets from a call whose [try] gave [r], [failed]
    telling whether it gave it from an [except] clause. *)
Definition in_session {A} (session : Session) (failed : bool) (r : A) : result A :=
  match session with
  | Up => Ok r
  | NoScreenshot => if failed then Raise PlaywrightError else Ok r
  | CloseFails => Raise PlaywrightError
  | Down => Raise PlaywrightError
  end.

(** What a click on the delete button of an element leads to. *)
Inductive Click : Type :=
| NoRemoval                  (* the button does not show within its 10 s, the
                                click raises, or the page keeps the element *)
| Removes (in_time : bool).  (* the page removes the element: within the
                                10 s of wait_for(state="hidden"), or later *)

Definition nonempty (s : string) : bool := negb (String.eqb s "").

(** [limit and i >= limit] *)
Definition limit_reached (limit : option Z) (i : nat) : bool :=
  match limit with
  | None => false
  | Some l => negb (l =? 0) && (Z.of_nat i >=? l)
  end.

Section Fetch.
(** [hashlib.sha256(s.encode()).hexdigest()] *)
Variable sha256_hex : string -> string.

(** The id of a content pair: the digest of [f"{text}-{translation}"]. *)
Definition id_of_pair (t tr : string) : string := sha256_hex (t +:+ "-" +:+ tr).

Definition make_item (t tr : string) : FavoriteItem :=
  mkFavoriteItem t tr (id_of_pair t tr).

(** An item carries the id of its own content. *)
Definition hashed (it : FavoriteItem) : Prop :=
  item_id it = id_of_pair (text it) (translation it).

(** The loop over [enumerate(favorite_elements)]. *)
Fixpoint extract_items (limit : option Z) (i : nat) (elements : list Row)
    (items : list FavoriteItem) : list FavoriteItem :=
  match elements with
  | [] => items
  | element :: rest =>
      if limit_reached limit i then items
      else
        match element with
        | RowError => extract_items limit (S i) rest items
        | RowOk t tr =>
            if nonempty t && nonempty tr
            then extract_items limit (S i) rest (items ++ [make_item t tr])
            else extract_items limit (S i) rest items
        end
  end.

(** The [try] of [fetch_favorites]. A page that does not get ready is
    a caught timeout; a page with no favourite shows the empty-state
    indicator. Both give []. *)
Definition page_items (limit : option Z) (src : Source) : list FavoriteItem :=
  if reachable src then
    match rows src with
    | [] => []
    | elements => extract_items limit 0 elements []
    end
  else [].

Definition fetch_favorites (session : Session) (limit : option Z) (src : Source)
    : result (list FavoriteItem) :=
  in_session session (negb (reachable src)) (page_items limit src).
End Fetch.

Section Delete.
(** Playwright's [:has-text("...")] on a favourite element. *)
Variable has_text : string -> Row -> bool.
(** What the click on the delete button of the item's element does. *)
Variable click : FavoriteItem -> Click.

(** Drop the first element the selector matches. *)
Fixpoint remove_first (t : string) (elements : list Row) : option (list Row) :=
  match elements with
  | [] => None
  | element :: rest =>
      if has_text t element then Some rest
      else cons element <$> remove_first t rest
  end.

(** The [try] of [delete_favorite_item], with the page it leaves. The
    item's element is [locator(...).first], the first element the
    selector matches. That the click removes this element is an
    assumption about the page (the Source contract of the
    specification: [delete] removes the item); the code only waits for
    the locator to be hidden. The locator is resolved again by that
    wait: while another element matches, it is not hidden, and the call
    returns [False] although the click removed an element. *)
Definition delete_on_page (item : FavoriteItem) (src : Source) : bool * Source :=
  if reachable src then
    match remove_first (text item) (rows src) with
    | None => (false, src)               (* wait_for(visible) times out *)
    | Some rows' =>
        match click item with
        | NoRemoval => (false, src)
        | Removes in_time =>
            (in_time && negb (existsb (has_text (text item)) rows'),
             mkSource (reachable src) rows')
        end
    end
  else (false, src).

(** The page is taken not to change between two steps of one call
    other than by the click: an element that was waited for is still
    there when it is counted, so [count() == 0] does not hold and every
    [False] of the [try] comes from an [except] clause. *)
Definition delete_favorite_item (session : Session) (item : FavoriteItem)
    (src : Source) : result bool * Source :=
  match session with
  | Down => (Raise PlaywrightError, src)
  | _ =>
      let '(ok, src') := delete_on_page item src in
      (in_session session (negb ok) ok, src')
  end.
End Delete.

End scraper.

(** ** gemini_client.py: the enrichment service *)

Module gemini_client.
Import scraper.

(** The dataclasses: their fields hold whatever the reply's JSON held. *)
Record ProcessedWord : Type := mkProcessedWord {
  english_word : json;
  example_sentence : json;
  japanese_meaning : json;
  example_translation : json
}.

Record ProcessedSentence : Type := mkProcessedSentence {
  japanese_sentence : json;
  english_sentence : json
}.

(** [ProcessedItem(item_id, type, data)]: [type] is the tag. *)
Inductive ProcessedItem : Type :=
| ProcessedItem_word (item_id : string) (data : ProcessedWord)
| ProcessedItem_sentence (item_id : string) (data : ProcessedSentence).

Definition type (p : ProcessedItem) : string :=
  match p with
  | ProcessedItem_word _ _ => "word"
  | ProcessedItem_sentence _ _ => "sentence"
  end.

(** [GeminiProcessor.__init__] *)
Definition GeminiProcessor (cfg : config.Config) : result unit :=
  if negb (nonempty (config.GEMINI_API_KEY cfg))
  then Raise (RuntimeError "GEMINI_API_KEY is not set in .env")
  else Ok tt.

(** [x == s] for a decoded value [x] and a string literal [s]. *)
Definition is_str (x : json) (s : string) : bool :=
  match x with
  | JStr s' => String.eqb s' s
  | _ => false
  end.

(** [data.get(key)] / [item_data.get(key, default)]: only a dict has [get]. *)
Definition py_get (x : json) (key : string) (default : json) : result json :=
  match x with
  | JObj kvs => Ok (from_option id default (obj_lookup key kvs))
  | _ => Raise AttributeError
  end.

(** The part of [process_item] after [json.loads]. *)
Definition decode (id : string) (data : json) : result (option ProcessedItem) :=
  result_bind (py_get data "type" JNull) (fun item_type =>
  result_bind (py_get data "data" JNull) (fun item_data =>
  if negb (truthy item_type) || negb (truthy item_data) then Ok None
  else if is_str item_type "word" then
    result_bind (py_get item_data "english_word" (JStr "")) (fun f1 =>
    result_bind (py_get item_data "example_sentence" (JStr "")) (fun f2 =>
    result_bind (py_get item_data "japanese_meaning" (JStr "")) (fun f3 =>
    result_bind (py_get item_data "example_translation" (JStr "")) (fun f4 =>
    Ok (Some (ProcessedItem_word id (mkProcessedWord f1 f2 f3 f4)))))))
  else if is_str item_type "sentence" then
    result_bind (py_get item_data "japanese_sentence" (JStr "")) (fun f1 =>
    result_bind (py_get item_data "english_sentence" (JStr "")) (fun f2 =>
    Ok (Some (ProcessedItem_sentence id (mkProcessedSentence f1 f2)))))
  else Ok None)).

(** What [decode] builds from the reply's data object [d]: each field is
    [d.get(key, "")]. *)
Definition field_or_empty (d : list (string * json)) (key : string) : json :=
  from_option id (JStr "") (obj_lookup key d).

Definition word_from (iid : string) (d : list (string * json)) : ProcessedItem :=
  ProcessedItem_word iid
    (mkProcessedWord (field_or_empty d "english_word")
                     (field_or_empty d "example_sentence")
                     (field_or_empty d "japanese_meaning")
                     (field_or_empty d "example_translation")).

Definition sentence_from (iid : string) (d : list (string * json)) : ProcessedItem :=
  ProcessedItem_sentence iid
    (mkProcessedSentence (field_or_empty d "japanese_sentence")
                         (field_or_empty d "english_sentence")).

Definition ends_with (suffix s : string) : bool :=
  String.prefix (String.rev suffix) (String.rev s).

(** What [generate_content] returns: [response.text] is a property, and
    reading it may raise (a reply without usable content). *)
Record Response : Type := mkResponse {
  response_text : result string
}.

Section Process.
(** [self.model.generate_content(prompt)], for the prompt built from the
    item's text and translation. *)
Variable generate_content : string -> string -> result Response.
(** [str.strip] and [json.loads] ([None]: JSONDecodeError). *)
Variable py_strip : string -> string.
Variable json_loads : string -> option json.

Definition clean_markdown (json_output : string) : string :=
  if String.prefix "```json" json_output && ends_with "```" json_output
  then py_strip (String.substring 7 (String.length json_output - 10) json_output)
  else json_output.

(** [process_item]. The clause for [json.JSONDecodeError] logs
    [response.text]: when the exception came out of [generate_content]
    itself, [response] is not bound and the clause raises
    UnboundLocalError; when it came out of [response.text], reading the
    property again raises again. The other two clauses return [None]. *)
Definition process_item (item : FavoriteItem) : result (option ProcessedItem) :=
  let response := generate_content (text item) (translation item) in
  try_except
    (result_bind response (fun response =>
     result_bind (response_text response) (fun reply =>
     let json_output := clean_markdown (py_strip reply) in
     result_bind (match json_loads json_output with
                  | Some data => Ok data
                  | None => Raise JSONDecodeError
                  end) (fun data =>
     decode (scraper.item_id item) data))))
    (fun e =>
       match e with
       | JSONDecodeError =>
           match response with
           | Ok response => result_bind (response_text response) (fun _ => Ok None)
           | Raise _ => Raise UnboundLocalError
           end
       | GoogleAPIError => Ok None
       | _ => Ok None            (* except Exception *)
       end).
End Process.

End gemini_client.

(** ** anki_client.py: the flashcard store *)

Module anki_client.
Import gemini_client.

Record AnkiNote : Type := mkAnkiNote {
  deckName : string;
  modelName : string;
  fields : list (string * json);
  options : list (string * json)
}.

(** What AnkiConnect answers to one request. [NoReply]: [requests.post],
    [raise_for_status] or [resp.json] raises. [NotAnObject]: the answer
    is JSON, but not an object. [Reply]: an object, with what it holds
    under "error" and "result" ([None] for a missing key). *)
Inductive AnkiReply : Type :=
| NoReply
| NotAnObject
| Reply (error result : json).

(** The collection behind AnkiConnect. *)
Record Anki : Type := mkAnki {
  decks : list string;
  notes : list AnkiNote
}.

Definition format_word_note (cfg : config.Config) (word_data : ProcessedWord) : AnkiNote :=
  mkAnkiNote (config.ANKI_WORD_DECK_NAME cfg) (config.ANKI_WORD_NOTE_TYPE cfg)
    [ ("単語", english_word word_data);
      ("フレーズ", example_sentence word_data);
      ("意味", japanese_meaning word_data);
      ("フレーズの意味", example_translation word_data);
      ("単語音声", JStr "");
      ("フレーズ音声", JStr "") ]
    [ ("allowDuplicate", JBool true) ].

Definition format_sentence_note (cfg : config.Config) (sentence_data : ProcessedSentence) : AnkiNote :=
  mkAnkiNote (config.ANKI_SENTENCE_DECK_NAME cfg) (config.ANKI_SENTENCE_NOTE_TYPE cfg)
    [ ("Front", japanese_sentence sentence_data);
      ("Back", english_sentence sentence_data) ]
    [ ("allowDuplicate", JBool true) ].

Definition is_None (x : json) : bool :=
  match x with
  | JNull => true
  | _ => false
  end.

Section Invoke.
Variable py_repr : json -> string.
(** AnkiConnect's answers to [createDeck] and to [addNote]. *)
Variable createDeck : string -> AnkiReply.
Variable addNote : AnkiNote -> AnkiReply.

(** [_invoke], on the reply the request got. *)
Definition _invoke (reply : AnkiReply) : result json :=
  match reply with
  | NoReply => Raise RequestException
  | NotAnObject => Raise AttributeError       (* data.get *)
  | Reply error result =>
      if truthy error
      then Raise (RuntimeError ("AnkiConnect error: " +:+ storage.py_str py_repr error))
      else Ok result
  end.

(** What the two requests do to the collection is not in
    [anki_client.py]: it is the Sink contract of the specification
    ([ensure_target] is idempotent; [write] returns an identifier for a
    card the store accepted, nothing otherwise), assumed of AnkiConnect. *)
Definition with_deck (deck_name : string) (a : Anki) : Anki :=
  if bool_decide (deck_name ∈ decks a) then a
  else mkAnki (decks a ++ [deck_name]) (notes a).

Definition ensure_deck_and_model (deck_name model_name : string) (a : Anki)
    : result unit * Anki :=
  match _invoke (createDeck deck_name) with
  | Ok _ => (Ok tt, with_deck deck_name a)
  | Raise e => (Raise e, a)
  end.

(** [add_note]: whatever [_invoke] raises is caught ([except
    Exception]). By the Sink contract the collection holds the note
    when the answer carried an identifier. *)
Definition add_note (note : AnkiNote) (a : Anki) : result json * Anki :=
  let r := try_except (_invoke (addNote note)) (fun _ => Ok JNull) in
  match r with
  | Ok result =>
      (r, if is_None result then a else mkAnki (decks a) (notes a ++ [note]))
  | Raise _ => (r, a)
  end.
End Invoke.

End anki_client.

(** ** main.py: one reconciliation pass *)

Module main.
Import scraper gemini_client anki_client.

(** The calls [main.py] makes to the other modules, as they happen. *)
Inductive Event : Type :=
| EvLoadIds
| EvFetch (limit : Z)
| EvDelete (item : FavoriteItem)
| EvProcess (item : FavoriteItem)
| EvEnsureDeck (deck_name model_name : string)
| EvAddNote (note : AnkiNote)
| EvSaveIds (ids : gset string).

(** The collaborators' behaviour during one pass. [session] tells how
    the browser session of the next Source call goes, given the calls
    made so far. *)
Record Env : Type := mkEnv {
  cfg : config.Config;
  sha256_hex : string -> string;
  py_repr : json -> string;
  session : list Event -> Session;
  has_text : string -> Row -> bool;
  click : FavoriteItem -> Click;
  generate_content : string -> string -> result Response;
  py_strip : string -> string;
  json_loads : string -> option json;
  createDeck : string -> AnkiReply;
  addNote : AnkiNote -> AnkiReply
}.

Record World : Type := mkWorld {
  source : Source;
  disk : storage.Disk;
  anki : Anki;
  trace : list Event
}.

Definition log (ev : Event) (w : World) : World :=
  mkWorld (source w) (disk w) (anki w) (trace w ++ [ev]).

(** State and exceptions: a raise keeps the world reached so far. *)
Definition M (A : Type) : Type := World -> result A * World.

Definition ret {A} (a : A) : M A := fun w => (Ok a, w).

Definition bind {A B} (m : M A) (k : A -> M B) : M B :=
  fun w =>
    match m w with
    | (Ok a, w') => k a w'
    | (Raise e, w') => (Raise e, w')
    end.

#[export] Instance M_ret : MRet M := @ret.
#[export] Instance M_bind : MBind M := fun A B k m => bind m k.

Section Pass.
Variable env : Env.

(** *** The calls into the other modules *)

Definition load_ids : M (gset string) := fun w =>
  (storage.load_ids (py_repr env) (disk w), log EvLoadIds w).

Definition save_ids (ids : gset string) : M unit := fun w =>
  let '(r, d) := storage.save_ids (elements ids) (disk w) in
  (r, log (EvSaveIds ids) (mkWorld (source w) d (anki w) (trace w))).

Definition fetch_favorites (limit : Z) : M (list FavoriteItem) := fun w =>
  (scraper.fetch_favorites (sha256_hex env) (session env (trace w)) (Some limit)
     (source w),
   log (EvFetch limit) w).

Definition delete_favorite_item (item : FavoriteItem) : M bool := fun w =>
  let '(r, s) :=
    scraper.delete_favorite_item (has_text env) (click env) (session env (trace w))
      item (source w) in
  (r, log (EvDelete item) (mkWorld s (disk w) (anki w) (trace w))).

Definition GeminiProcessor : M unit := fun w =>
  (gemini_client.GeminiProcessor (cfg env), w).

Definition process_item (item : FavoriteItem) : M (option ProcessedItem) := fun w =>
  (gemini_client.process_item (generate_content env) (py_strip env) (json_loads env) item,
   log (EvProcess item) w).

Definition ensure_deck_and_model (deck_name model_name : string) : M unit := fun w =>
  let '(r, a) :=
    anki_client.ensure_deck_and_model (py_repr env) (createDeck env)
      deck_name model_name (anki w) in
  (r, log (EvEnsureDeck deck_name model_name) (mkWorld (source w) (disk w) a (trace w))).

Definition add_note (note : AnkiNote) : M json := fun w =>
  let '(r, a) := anki_client.add_note (py_repr env) (addNote env) note (anki w) in
  (r, log (EvAddNote note) (mkWorld (source w) (disk w) a (trace w))).

(** *** [_load_and_filter_favorites] *)

(** [for item in stale_favorites: if delete_favorite_item(item): ...] *)
Fixpoint delete_each (items : list FavoriteItem) (deleted_count : Z) : M Z :=
  match items with
  | [] => ret deleted_count
  | item :: rest =>
      ok ← delete_favorite_item item;
      delete_each rest (if ok : bool then deleted_count + 1 else deleted_count)
  end.

Definition _load_and_filter_favorites (limit : Z) (processed_item_ids : gset string)
    (skip_browser : bool) : M (list FavoriteItem) :=
  all_favorites ←
    (if negb skip_browser then
       all_favorites ← fetch_favorites limit;
       let stale_favorites :=
         filter (fun item => item_id item ∈ processed_item_ids) all_favorites in
       match stale_favorites with
       | [] => ret all_favorites
       | _ =>
           delete_each stale_favorites 0 ;;
           fetch_favorites limit
       end
     else ret []);
  ret (filter (fun item => item_id item ∉ processed_item_ids) all_favorites).

(** *** [_process_new_favorites] *)

Definition note_of (p : ProcessedItem) : AnkiNote :=
  match p with
  | ProcessedItem_word _ data => format_word_note (cfg env) data
  | ProcessedItem_sentence _ data => format_sentence_note (cfg env) data
  end.

(** [for i, item in enumerate(new_favorites)], from index [i] on. *)
Fixpoint process_each (limit : Z) (dry_run : bool) (i : nat)
    (items : list FavoriteItem) (notes_to_add : list AnkiNote)
    (newly_processed_ids : gset string) : M (list AnkiNote * gset string) :=
  match items with
  | [] => ret (notes_to_add, newly_processed_ids)
  | item :: rest =>
      if dry_run && (Z.of_nat i >=? limit)
      then ret (notes_to_add, newly_processed_ids)      (* break *)
      else
        processed_item ← process_item item;
        match processed_item with
        | Some p =>
            process_each limit dry_run (S i) rest
              (notes_to_add ++ [note_of p])
              ({[item_id item]} ∪ newly_processed_ids)
        | None =>
            process_each limit dry_run (S i) rest notes_to_add newly_processed_ids
        end
  end.

Definition _process_new_favorites (new_favorites : list FavoriteItem) (limit : Z)
    (dry_run : bool) : M (list AnkiNote * gset string) :=
  GeminiProcessor ;;
  process_each limit dry_run 0 new_favorites [] ∅.

(** *** [_add_notes_to_anki] *)

(** [new_favorites[i]] *)
Definition index (new_favorites : list FavoriteItem) (i : nat) : M FavoriteItem :=
  fun w =>
    match new_favorites !! i with
    | Some item => (Ok item, w)
    | None => (Raise IndexError, w)
    end.

(** [for i, note in enumerate(notes_to_add)], from index [i] on. *)
Fixpoint add_each (new_favorites : list FavoriteItem) (i : nat)
    (notes_to_add : list AnkiNote) (successfully_added_items : list FavoriteItem)
    : M (list FavoriteItem) :=
  match notes_to_add with
  | [] => ret successfully_added_items
  | note :: rest =>
      original_favorite_item ← index new_favorites i;
      note_id ← add_note note;
      if negb (is_None note_id)
      then add_each new_favorites (S i) rest
             (successfully_added_items ++ [original_favorite_item])
      else add_each new_favorites (S i) rest successfully_added_items
  end.

Definition _add_notes_to_anki (notes_to_add : list AnkiNote)
    (new_favorites : list FavoriteItem) (processed_item_ids : gset string)
    : M (list FavoriteItem) :=
  ensure_deck_and_model (config.ANKI_WORD_DECK_NAME (cfg env))
                        (config.ANKI_WORD_NOTE_TYPE (cfg env)) ;;
  ensure_deck_and_model (config.ANKI_SENTENCE_DECK_NAME (cfg env))
                        (config.ANKI_SENTENCE_NOTE_TYPE (cfg env)) ;;
  successfully_added_items ← add_each new_favorites 0 notes_to_add [];
  save_ids (list_to_set (item_id <$> successfully_added_items) ∪ processed_item_ids) ;;
  ret successfully_added_items.

(** *** [_delete_processed_favorites] *)

Definition _delete_processed_favorites (successfully_added_items : list FavoriteItem)
    (skip_browser : bool) : M unit :=
  if negb skip_browser then
    delete_each successfully_added_items 0 ;;
    ret tt
  else ret tt.

(** *** [run_once] *)

Definition run_once (limit : Z) (dry_run skip_browser : bool) : M unit :=
  processed_item_ids ← load_ids;
  new_favorites ← _load_and_filter_favorites limit processed_item_ids skip_browser;
  match new_favorites with
  | [] => ret tt
  | _ =>
      r ← _process_new_favorites new_favorites limit dry_run;
      let '(notes_to_add, newly_processed_ids) := r in
      match notes_to_add with
      | [] => ret tt
      | _ =>
          if dry_run then ret tt
          else
            successfully_added_items ←
              _add_notes_to_anki notes_to_add new_favorites processed_item_ids;
            _delete_processed_favorites successfully_added_items skip_browser
      end
  end.
End Pass.

(** *** The outline of a pass

    What a pass finds and does, read off the world it starts in; the
    theorems below state the trace of [run_once] in these terms. *)
Section Outline.
Variable env : Env.

(** The ids [load_ids] returns (none when it raises). *)
Definition known_ids (w : World) : gset string :=
  match storage.load_ids (py_repr env) (disk w) with
  | Ok ids => ids
  | Raise _ => ∅
  end.

(** What [fetch_favorites(limit=limit)] returns on the page [s], when
    it returns. *)
Definition fetched (limit : Z) (s : Source) : list FavoriteItem :=
  scraper.page_items (sha256_hex env) (Some limit) s.

Definition stale_in (known : gset string) (items : list FavoriteItem)
    : list FavoriteItem :=
  filter (fun item => item_id item ∈ known) items.

Definition new_in (known : gset string) (items : list FavoriteItem)
    : list FavoriteItem :=
  filter (fun item => item_id item ∉ known) items.

(** The Source calls of [_load_and_filter_favorites], when all of them
    return. *)
Definition cleanup_events (limit : Z) (known : gset string) (skip_browser : bool)
    (s : Source) : list Event :=
  if skip_browser then []
  else
    match stale_in known (fetched limit s) with
    | [] => [EvFetch limit]
    | stale => EvFetch limit :: (EvDelete <$> stale) ++ [EvFetch limit]
    end.

(** The note the enrichment of an item leads to, if any. *)
Definition enrich (item : FavoriteItem) : option AnkiNote :=
  match gemini_client.process_item (generate_content env) (py_strip env)
          (json_loads env) item with
  | Ok (Some p) => Some (note_of env p)
  | _ => None
  end.

Definition enriched (items : list FavoriteItem) : list AnkiNote := omap enrich items.

(** Whether [add_note] returns an identifier for the note. *)
Definition accepted (note : AnkiNote) : bool :=
  match try_except (anki_client._invoke (py_repr env) (addNote env note))
                   (fun _ => Ok JNull) with
  | Ok result => negb (is_None result)
  | Raise _ => false
  end.

(** The items [_add_notes_to_anki] takes for written: the note at
    position [i] is credited to [new_favorites[i]]. *)
Definition credited (new_favorites : list FavoriteItem) (notes_to_add : list AnkiNote)
    : list FavoriteItem :=
  fst <$> filter (fun p => accepted (snd p) = true) (zip new_favorites notes_to_add).

Definition ensure_word : Event :=
  EvEnsureDeck (config.ANKI_WORD_DECK_NAME (cfg env))
               (config.ANKI_WORD_NOTE_TYPE (cfg env)).

Definition ensure_sentence : Event :=
  EvEnsureDeck (config.ANKI_SENTENCE_DECK_NAME (cfg env))
               (config.ANKI_SENTENCE_NOTE_TYPE (cfg env)).

(** The Sink, Ledger and Source calls after the enrichment: none; the
    deck calls up to the one that raised; or both deck calls, every
    write, the one save and then the deletions, up to one that raised. *)
Inductive commit_events (known : gset string) (new_favorites : list FavoriteItem)
    (notes_to_add : list AnkiNote) : list Event -> Prop :=
| commit_not_started :
    commit_events known new_favorites notes_to_add []
| commit_word_deck_failed :
    commit_events known new_favorites notes_to_add [ensure_word]
| commit_sentence_deck_failed :
    commit_events known new_favorites notes_to_add [ensure_word; ensure_sentence]
| commit_saved dels :
    dels `prefix_of` credited new_favorites notes_to_add ->
    commit_events known new_favorites notes_to_add
      (ensure_word :: ensure_sentence ::
       (EvAddNote <$> notes_to_add) ++
       EvSaveIds (list_to_set (item_id <$> credited new_favorites notes_to_add) ∪ known)
       :: (EvDelete <$> dels)).

Definition is_process (ev : Event) : bool :=
  match ev with EvProcess _ => true | _ => false end.
Definition is_add_note (ev : Event) : bool :=
  match ev with EvAddNote _ => true | _ => false end.
Definition is_save (ev : Event) : bool :=
  match ev with EvSaveIds _ => true | _ => false end.

(** How many events of a kind a trace holds. *)
Definition count (kind : Event -> bool) (evs : list Event) : nat :=
  length (List.filter kind evs).

(** The first two calls of [run_once]: the ledger load and
    [_load_and_filter_favorites]. *)
Definition prologue (limit : Z) (skip_browser : bool) : M (list FavoriteItem) :=
  processed_item_ids ← load_ids env;
  _load_and_filter_favorites env limit processed_item_ids skip_browser.
End Outline.

End main.

(** ** Concrete passes

    A stand-in for each collaborator, to run [run_once] on small worlds. *)

Module scenarios.
Import scraper gemini_client anki_client main.

(** A stand-in for the digest. *)
Definition digest (s : string) : string := "sha256:" +:+ s.

(** The selector matches the element whose text is the item's text. *)
Definition same_text (t : string) (element : Row) : bool :=
  match element with
  | RowOk row_text _ => String.eqb row_text t
  | RowError => false
  end.

(** The service fails on the text "zzz"; otherwise the reply text is the
    item's text, and it parses to a sentence reply around it. *)
Definition service (t tr : string) : result Response :=
  if String.eqb t "zzz" then Raise GoogleAPIError else Ok (mkResponse (Ok t)).

Definition sentence_reply (s : string) : option json :=
  Some (JObj [ ("type", JStr "sentence");
               ("data", JObj [ ("japanese_sentence", JStr s);
                               ("english_sentence", JStr s) ]) ]).

(** Every browser session works and every click removes its element
    in time; Anki is up and accepts every note. *)
Definition env_with_key (key : string) : Env :=
  mkEnv (config.mkConfig key "Default" "Default" "Basic" "Basic")
        digest (fun _ => "") (fun _ => Up) same_text (fun _ => Removes true)
        service (fun s => s) sentence_reply
        (fun _ => Reply JNull JNull) (fun _ => Reply JNull (JNum 1)).

Definition env : Env := env_with_key "key".

Definition disk_with (f : storage.FileState) : storage.Disk :=
  storage.mkDisk true true true false f.

Definition world (f : storage.FileState) (elements : list Row) : World :=
  mkWorld (mkSource true elements) (disk_with f) (mkAnki [] []) [].

Definition item (t tr : string) : FavoriteItem :=
  mkFavoriteItem t tr (digest (t +:+ "-" +:+ tr)).

Definition sentence_note (s : string) : AnkiNote :=
  mkAnkiNote "Default" "Basic" [("Front", JStr s); ("Back", JStr s)]
             [("allowDuplicate", JBool true)].

(** A page with the stale item a/x and the new item b/y. *)
Definition stale_and_new : World :=
  world (storage.Doc (JList [JStr "sha256:a-x"])) [RowOk "a" "x"; RowOk "b" "y"].

(** An empty ledger and a page with one new item. *)
Definition one_new : World := world storage.Absent [RowOk "hello" "konnichiwa"].

(** A page whose only new item the service fails on. *)
Definition one_failing : World := world storage.Absent [RowOk "zzz" "x"].

(** A page of elements that give no item. *)
Definition nothing_readable : World := world storage.Absent [RowError; RowOk "" "x"].

(** A ledger with one id, and a page with two items it does not hold. *)
Definition nothing_stale : World :=
  world (storage.Doc (JList [JStr "sha256:q-r"])) [RowOk "a" "x"; RowOk "b" "y"].


End scenarios.

(** ** Further notions used by the properties below *)

Module scraper_outline.
Import scraper.

Section Outline.
Variable sha256_hex : string -> string.

(** What one favourite element contributes to a fetch. *)
Definition item_of_row (element : Row) : option FavoriteItem :=
  match element with
  | RowError => None
  | RowOk t tr =>
      if nonempty t && nonempty tr then Some (make_item sha256_hex t tr) else None
  end.
End Outline.

(** The elements of the page a fetch looks at. *)
Definition rows_examined (limit : option Z) (elements : list Row) : list Row :=
  match limit with
  | None => elements
  | Some l => if l =? 0 then elements else take (Z.to_nat l) elements
  end.

End scraper_outline.

Module pass_outline.
Import scraper gemini_client anki_client main.

Section Outline.
Variable env : Env.

(** The collection with the notes Anki accepted among [notes_to_add]. *)
Definition with_notes (notes_to_add : list AnkiNote) (a : Anki) : Anki :=
  mkAnki (decks a) (notes a ++ filter (fun note => accepted env note = true) notes_to_add).

(** The ids of the items whose enrichment gave a note. *)
Definition enriched_ids (items : list FavoriteItem) : gset string :=
  list_to_set (item_id <$> filter (fun item => is_Some (enrich env item)) items).

(** [process_item] on the item, as [_process_new_favorites] calls it. *)
Definition enrichment (item : FavoriteItem) : result (option ProcessedItem) :=
  gemini_client.process_item (generate_content env) (py_strip env) (json_loads env) item.

Definition returns {A} (r : result A) : bool :=
  match r with
  | Ok _ => true
  | Raise _ => false
  end.

(** A world with further calls on its trace. *)
Definition after (w : World) (evs : list Event) : World :=
  mkWorld (source w) (disk w) (anki w) (trace w ++ evs).
End Outline.

End pass_outline.

Module pass_outcomes.
Import scraper gemini_client anki_client main pass_outline.

Section Outcomes.
Variable env : Env.

Definition word_deck : string := config.ANKI_WORD_DECK_NAME (cfg env).
Definition sentence_deck : string := config.ANKI_SENTENCE_DECK_NAME (cfg env).

(** What [_invoke("createDeck", ...)] gives for a deck. *)
Definition deck_reply (deck_name : string) : result json :=
  anki_client._invoke (py_repr env) (createDeck env deck_name).

(** The candidate-new items of a pass (none when the ledger load or a
    Source call raises), the page after its cleanup and the calls up to
    there. *)
Definition candidates (limit : Z) (skip_browser : bool) (w : World) : list FavoriteItem :=
  match (prologue env limit skip_browser w).1 with
  | Ok new_favorites => new_favorites
  | Raise _ => []
  end.

Definition cleaned (limit : Z) (skip_browser : bool) (w : World) : Source :=
  source (prologue env limit skip_browser w).2.

Definition prelude (limit : Z) (skip_browser : bool) (w : World) : list Event :=
  trace (prologue env limit skip_browser w).2.

(** The id set [_add_notes_to_anki] saves. *)
Definition saved_ids (limit : Z) (skip_browser : bool) (w : World) : gset string :=
  list_to_set (item_id <$> credited env (candidates limit skip_browser w)
                             (enriched env (candidates limit skip_browser w)))
  ∪ known_ids env w.

(** Anki after both deck calls and the writes. *)
Definition written (limit : Z) (skip_browser : bool) (w : World) : Anki :=
  with_notes env (enriched env (candidates limit skip_browser w))
    (with_deck sentence_deck (with_deck word_deck (anki w))).

(** The world in which the committed deletions start: the ledger saved
    to disk [d]. *)
Definition saved (limit : Z) (skip_browser : bool) (w : World) (d : storage.Disk) : World :=
  mkWorld (cleaned limit skip_browser w) d (written limit skip_browser w)
          (prelude limit skip_browser w ++
           (EvProcess <$> candidates limit skip_browser w) ++
           [ensure_word env; ensure_sentence env] ++
           (EvAddNote <$> enriched env (candidates limit skip_browser w)) ++
           [EvSaveIds (saved_ids limit skip_browser w)]).

(** The ways a pass can end, with the world it leaves. *)
Inductive pass_outcome (limit : Z) (dry_run skip_browser : bool) (w : World)
    : result unit -> World -> Prop :=
| pass_aborts_early e :
    (prologue env limit skip_browser w).1 = Raise e ->
    pass_outcome limit dry_run skip_browser w (Raise e)
      (prologue env limit skip_browser w).2
| pass_nothing_new :
    (prologue env limit skip_browser w).1 = Ok [] ->
    pass_outcome limit dry_run skip_browser w (Ok tt)
      (prologue env limit skip_browser w).2
| pass_no_key :
    candidates limit skip_browser w <> [] ->
    config.GEMINI_API_KEY (cfg env) = "" ->
    pass_outcome limit dry_run skip_browser w
      (Raise (RuntimeError "GEMINI_API_KEY is not set in .env"))
      (prologue env limit skip_browser w).2
| pass_enrichment_raises k item e :
    config.GEMINI_API_KEY (cfg env) <> "" ->
    candidates limit skip_browser w !! k = Some item ->
    (forall it, it ∈ take k (candidates limit skip_browser w) ->
       returns (enrichment env it) = true) ->
    enrichment env item = Raise e ->
    (dry_run = true -> Z.of_nat k < limit) ->
    pass_outcome limit dry_run skip_browser w (Raise e)
      (after (prologue env limit skip_browser w).2
         (EvProcess <$> take (S k) (candidates limit skip_browser w)))
| pass_stops_after_enrichment k :
    candidates limit skip_browser w <> [] ->
    config.GEMINI_API_KEY (cfg env) <> "" ->
    (forall it, it ∈ take k (candidates limit skip_browser w) ->
       returns (enrichment env it) = true) ->
    (dry_run = false -> k = length (candidates limit skip_browser w)) ->
    (dry_run = true ->
     k = Nat.min (length (candidates limit skip_browser w)) (Z.to_nat limit)) ->
    dry_run = true \/ enriched env (take k (candidates limit skip_browser w)) = [] ->
    pass_outcome limit dry_run skip_browser w (Ok tt)
      (after (prologue env limit skip_browser w).2
         (EvProcess <$> take k (candidates limit skip_browser w)))
| pass_word_deck_fails e :
    dry_run = false -> skip_browser = false ->
    config.GEMINI_API_KEY (cfg env) <> "" ->
    (forall it, it ∈ candidates limit skip_browser w ->
       returns (enrichment env it) = true) ->
    enriched env (candidates limit skip_browser w) <> [] ->
    deck_reply word_deck = Raise e ->
    pass_outcome limit dry_run skip_browser w (Raise e)
      (mkWorld (cleaned limit skip_browser w) (disk w) (anki w)
               (prelude limit skip_browser w ++
                (EvProcess <$> candidates limit skip_browser w) ++
                [ensure_word env]))
| pass_sentence_deck_fails e j :
    dry_run = false -> skip_browser = false ->
    config.GEMINI_API_KEY (cfg env) <> "" ->
    (forall it, it ∈ candidates limit skip_browser w ->
       returns (enrichment env it) = true) ->
    enriched env (candidates limit skip_browser w) <> [] ->
    deck_reply word_deck = Ok j ->
    deck_reply sentence_deck = Raise e ->
    pass_outcome limit dry_run skip_browser w (Raise e)
      (mkWorld (cleaned limit skip_browser w) (disk w)
               (with_deck word_deck (anki w))
               (prelude limit skip_browser w ++
                (EvProcess <$> candidates limit skip_browser w) ++
                [ensure_word env; ensure_sentence env]))
| pass_save_raises e d j1 j2 :
    dry_run = false -> skip_browser = false ->
    config.GEMINI_API_KEY (cfg env) <> "" ->
    (forall it, it ∈ candidates limit skip_browser w ->
       returns (enrichment env it) = true) ->
    enriched env (candidates limit skip_browser w) <> [] ->
    deck_reply word_deck = Ok j1 ->
    deck_reply sentence_deck = Ok j2 ->
    storage.save_ids (elements (saved_ids limit skip_browser w)) (disk w) = (Raise e, d) ->
    pass_outcome limit dry_run skip_browser w (Raise e)
      (saved limit skip_browser w d)
| pass_commits d j1 j2 :
    dry_run = false -> skip_browser = false ->
    config.GEMINI_API_KEY (cfg env) <> "" ->
    (forall it, it ∈ candidates limit skip_browser w ->
       returns (enrichment env it) = true) ->
    enriched env (candidates limit skip_browser w) <> [] ->
    deck_reply word_deck = Ok j1 ->
    deck_reply sentence_deck = Ok j2 ->
    storage.save_ids (elements (saved_ids limit skip_browser w)) (disk w) = (Ok tt, d) ->
    pass_outcome limit dry_run skip_browser w
      (_delete_processed_favorites env
         (credited env (candidates limit skip_browser w)
                   (enriched env (candidates limit skip_browser w)))
         false (saved limit skip_browser w d)).1
      (_delete_processed_favorites env
         (credited env (candidates limit skip_browser w)
                   (enriched env (candidates limit skip_browser w)))
         false (saved limit skip_browser w d)).2.
End Outcomes.

End pass_outcomes.

(** ** Further scenarios: a collaborator that fails *)

Module outages.
Import scraper gemini_client anki_client main scenarios.

Definition with_anki (create : string -> AnkiReply) (add : AnkiNote -> AnkiReply) : Env :=
  mkEnv (config.mkConfig "key" "Default" "Default" "Basic" "Basic")
        digest (fun _ => "") (fun _ => Up) same_text (fun _ => Removes true)
        service (fun s => s) sentence_reply create add.

(** AnkiConnect does not answer. *)
Definition env_without_anki : Env :=
  with_anki (fun _ => NoReply) (fun _ => NoReply).

(** The decks are there, but every [addNote] is answered with an error. *)
Definition env_rejecting : Env :=
  with_anki (fun _ => Reply JNull JNull)
            (fun _ => Reply (JStr "cannot create note because it is empty") JNull).



(** The service answers every item with a "word" reply that carries
    [english_word] only. *)
Definition partial_word_reply (s : string) : option json :=
  Some (JObj [ ("type", JStr "word");
               ("data", JObj [ ("english_word", JStr s) ]) ]).

Definition partial_word_env : Env :=
  mkEnv (config.mkConfig "key" "Default" "Default" "Basic" "Basic")
        digest (fun _ => "") (fun _ => Up) same_text (fun _ => Removes true)
        service (fun s => s) partial_word_reply
        (fun _ => Reply JNull JNull) (fun _ => Reply JNull (JNum 1)).

(** The service call itself raises [json.JSONDecodeError]. *)
Definition env_service_decode_error : Env :=
  mkEnv (config.mkConfig "key" "Default" "Default" "Basic" "Basic")
        digest (fun _ => "") (fun _ => Up) same_text (fun _ => Removes true)
        (fun _ _ => Raise JSONDecodeError) (fun s => s) sentence_reply
        (fun _ => Reply JNull JNull) (fun _ => Reply JNull (JNum 1)).

End outages.

(** * Theorems *)

Section StorageFacts.
Import storage.
Variable py_repr : json -> string.

Lemma py_str_JStr (l : list string) : py_str py_repr <$> (JStr <$> l) = l.
Proof. induction l as [|s l IH]; csimpl; [done | by f_equal]. Qed.

Lemma elem_of_sorted_ids ids x : x ∈ sorted_ids ids ↔ x ∈ ids.
Proof.
  unfold sorted_ids. rewrite merge_sort_Permutation, elem_of_elements.
  apply elem_of_list_to_set.
Qed.

Lemma NoDup_sorted_ids ids : NoDup (sorted_ids ids).
Proof.
  unfold sorted_ids. rewrite merge_sort_Permutation. apply NoDup_elements.
Qed.

Lemma Sorted_sorted_ids ids : Sorted String.le (sorted_ids ids).
Proof. apply (Sorted_merge_sort String.le). Qed.

Lemma list_to_set_sorted_ids ids :
  list_to_set (sorted_ids ids) = (list_to_set ids : gset string).
Proof.
  apply set_eq. intros x. rewrite !elem_of_list_to_set. apply elem_of_sorted_ids.
Qed.

(** What [load_ids] gives, by the state of the file. *)
Lemma load_ids_value (d : Disk) :
  load_ids py_repr d
  = match file d with
    | NoStat => Raise IOError
    | Doc (JList l) => Ok (list_to_set (py_str py_repr <$> l))
    | _ => Ok ∅
    end.
Proof.
  unfold load_ids, path_exists.
  destruct (file d) as [| | | | | |j]; simpl; try reflexivity.
  destruct j; reflexivity.
Qed.

(** Once the path can be examined, [load_ids] returns: the empty set
    unless the file holds a JSON list. *)
Lemma load_ids_returns (d : Disk) :
  file d <> NoStat ->
  exists ids,
    load_ids py_repr d = Ok ids /\
    match file d with
    | Doc (JList l) => ids = list_to_set (py_str py_repr <$> l)
    | _ => ids = ∅
    end.
Proof.
  intros Hstat. rewrite load_ids_value.
  destruct (file d) as [| | | | | |j]; try done; eauto.
  destruct j; eauto.
Qed.


(** C10. When the directory exists or can be created and the file can
    be written, [save_ids] returns, leaves the directory in place and
    the file holding the sorted, duplicate-free array of the ids, and
    [load_ids] on the result returns exactly the set of the ids. *)
Theorem save_ids_then_load_ids (ids : list string) (d : Disk) :
  parent_exists d || parent_creatable d = true ->
  writable d = true ->
  exists d',
    save_ids ids d = (Ok tt, d') /\
    parent_exists d' = true /\
    file d' = Doc (JList (JStr <$> sorted_ids ids)) /\
    Sorted String.le (sorted_ids ids) /\
    NoDup (sorted_ids ids) /\
    (forall x, x ∈ sorted_ids ids <-> x ∈ ids) /\
    load_ids py_repr d' = Ok (list_to_set ids).
Proof.
  intros Hdir Hw. unfold save_ids. rewrite Hdir. simpl. rewrite Hw.
  eexists. split; [reflexivity|].
  repeat split; simpl.
  - apply Sorted_sorted_ids.
  - apply NoDup_sorted_ids.
  - apply elem_of_sorted_ids.
  - apply elem_of_sorted_ids.
  - rewrite load_ids_value. simpl.
    by rewrite py_str_JStr, list_to_set_sorted_ids.
Qed.

(** What a save leaves for the next load. *)
Lemma load_after_save (ids : list string) (d : Disk) :
  load_ids py_repr (save_ids ids d).2
  = if parent_exists d || parent_creatable d
    then if writable d then Ok (list_to_set ids)
         else if torn d then Ok ∅ else load_ids py_repr d
    else load_ids py_repr d.
Proof.
  unfold save_ids. destruct (parent_exists d || parent_creatable d); [|done]. simpl.
  destruct (writable d); simpl.
  - rewrite load_ids_value. simpl. by rewrite py_str_JStr, list_to_set_sorted_ids.
  - destruct (torn d); simpl; [by rewrite load_ids_value|].
    by rewrite !load_ids_value.
Qed.

Lemma save_raises_keeps_disk (ids : list string) (d d' : Disk) e :
  save_ids ids d = (Raise e, d') ->
  d' = d /\ e = IOError /\ parent_exists d || parent_creatable d = false.
Proof.
  unfold save_ids. destruct (parent_exists d || parent_creatable d); simpl.
  - destruct (writable d); [discriminate|]. destruct (torn d); discriminate.
  - by intros [= <- <-].
Qed.
End StorageFacts.

(** C8 fails on the code. [path.exists()] stands before the [try] of
    [load_ids]: on a ledger path that cannot be examined it raises, and
    so does [load_ids]. On every other state of the file [load_ids]
    returns: the strings of the elements when the file holds a JSON
    list, the empty set otherwise. *)
Example load_ids_raises_on_unexaminable_path :
  storage.load_ids (fun _ => "")
    (storage.mkDisk true false false false storage.NoStat) = Raise IOError /\
  (forall py_repr d, storage.file d <> storage.NoStat ->
     storage.load_ids py_repr d
     = Ok (match storage.file d with
           | storage.Doc (JList l) => list_to_set (storage.py_str py_repr <$> l)
           | _ => ∅
           end)).
Proof.
  split; [reflexivity|]. intros py_repr d H. rewrite load_ids_value.
  destruct (storage.file d) as [| | | | | |j]; try done. by destruct j.
Qed.

(** C10 at ["b"; "a"; "b"], with the directory still to be created. *)
Lemma save_ids_then_load_ids_witness :
  exists d',
    storage.save_ids ["b"; "a"; "b"]
      (storage.mkDisk false true true false storage.Absent) = (Ok tt, d') /\
    storage.file d' = storage.Doc (JList [JStr "a"; JStr "b"]) /\
    storage.load_ids (fun _ => "") d' = Ok {[ "a"; "b" ]}.
Proof.
  destruct (save_ids_then_load_ids (fun _ => "") ["b"; "a"; "b"]
              (storage.mkDisk false true true false storage.Absent) eq_refl eq_refl)
    as (d' & Hs & _ & Hf & _ & _ & _ & Hl).
  exists d'. split; [exact Hs|]. split.
  - rewrite Hf. vm_compute. reflexivity.
  - rewrite Hl. vm_compute. reflexivity.
Defined.

Section ScraperFacts.
Import scraper.
Variable sha256_hex : string -> string.

Lemma extract_items_hashed limit elements : forall i items,
  Forall (hashed sha256_hex) items ->
  Forall (hashed sha256_hex) (extract_items sha256_hex limit i elements items).
Proof.
  induction elements as [|el rest IH]; intros i items Hitems; simpl; [done|].
  destruct (limit_reached limit i); [done|].
  destruct el as [|t tr]; [by apply IH|].
  destruct (nonempty t && nonempty tr); apply IH; [|done].
  apply Forall_app; split; [done|]. by repeat constructor.
Qed.

Lemma page_items_hashed limit src :
  Forall (hashed sha256_hex) (page_items sha256_hex limit src).
Proof.
  unfold page_items. destruct (reachable src); [|constructor].
  destruct (rows src); [constructor|]. by apply extract_items_hashed.
Qed.

Lemma in_session_Ok {A} session failed (r r' : A) :
  in_session session failed r = Ok r' -> r' = r.
Proof. destruct session, failed; simpl; congruence. Qed.

Lemma in_session_Raise {A} session failed (r : A) e :
  in_session session failed r = Raise e -> e = PlaywrightError /\ session <> Up.
Proof. destruct session, failed; simpl; try discriminate; by intros [= <-]. Qed.

(** A fetch that returns gives what the page shows. *)
Lemma fetch_favorites_Ok session limit src items :
  fetch_favorites sha256_hex session limit src = Ok items ->
  items = page_items sha256_hex limit src.
Proof. apply in_session_Ok. Qed.

Lemma fetch_favorites_hashed session limit src items :
  fetch_favorites sha256_hex session limit src = Ok items ->
  Forall (hashed sha256_hex) items.
Proof. intros ->%fetch_favorites_Ok. apply page_items_hashed. Qed.



(** C9. Two items that any two fetches return (any session, any page,
    any limit, any position) with the same text and translation carry
    the same [item_id]: the digest of that pair. *)
Theorem item_id_deterministic session1 session2 limit1 limit2 src1 src2
    items1 items2 (it1 it2 : FavoriteItem) :
  fetch_favorites sha256_hex session1 limit1 src1 = Ok items1 ->
  fetch_favorites sha256_hex session2 limit2 src2 = Ok items2 ->
  it1 ∈ items1 ->
  it2 ∈ items2 ->
  text it1 = text it2 ->
  translation it1 = translation it2 ->
  item_id it1 = id_of_pair sha256_hex (text it1) (translation it1) /\
  item_id it1 = item_id it2.
Proof.
  intros E1 E2 H1 H2 Ht Htr.
  pose proof (fetch_favorites_hashed _ _ _ _ E1) as F1.
  pose proof (fetch_favorites_hashed _ _ _ _ E2) as F2.
  rewrite Forall_forall in F1, F2.
  specialize (F1 _ H1). specialize (F2 _ H2). unfold hashed in *.
  split; [done|]. by rewrite F1, F2, Ht, Htr.
Qed.
End ScraperFacts.

Section GeminiFacts.
Import scraper gemini_client.

Lemma is_str_true x s : is_str x s = true -> x = JStr s.
Proof.
  destruct x; simpl; try discriminate. intros H. apply String.eqb_eq in H. by subst.
Qed.

(** When [decode] yields a variant, and which. *)
Lemma decode_Some iid data p :
  decode iid data = Ok (Some p) <->
  exists kvs d,
    data = JObj kvs /\ obj_lookup "data" kvs = Some (JObj d) /\ d <> [] /\
    ((obj_lookup "type" kvs = Some (JStr "word") /\ p = word_from iid d) \/
     (obj_lookup "type" kvs = Some (JStr "sentence") /\ p = sentence_from iid d)).
Proof.
  split.
  - unfold decode. destruct data as [| | | | |kvs]; simpl; try discriminate.
    destruct (obj_lookup "type" kvs) as [ty|] eqn:Ety; simpl; [|discriminate].
    destruct (obj_lookup "data" kvs) as [da|] eqn:Eda; simpl;
      [|destruct (truthy ty); discriminate].
    destruct (truthy ty); simpl; [|discriminate].
    destruct (truthy da) eqn:Etd; simpl; [|discriminate].
    destruct (is_str ty "word") eqn:Ew.
    + apply is_str_true in Ew. subst ty.
      destruct da as [| | | | |d]; simpl; try discriminate.
      intros [= <-]. exists kvs, d. repeat split; auto. by intros ->.
    + destruct (is_str ty "sentence") eqn:Es; [|discriminate].
      apply is_str_true in Es. subst ty.
      destruct da as [| | | | |d]; simpl; try discriminate.
      intros [= <-]. exists kvs, d. repeat split; auto. by intros ->.
  - intros (kvs & d & -> & Hd & Hne & H). unfold decode. simpl. rewrite Hd. simpl.
    destruct d as [|kv d]; [done|].
    destruct H as [[-> ->]|[-> ->]]; reflexivity.
Qed.

Lemma decode_ok_or_AttributeError iid data :
  (exists r, decode iid data = Ok r) \/ decode iid data = Raise AttributeError.
Proof.
  unfold decode. destruct data as [| | | | |kvs]; simpl; auto.
  destruct (negb _ || negb _); [eauto|].
  destruct (is_str _ "word").
  - destruct (from_option id JNull (obj_lookup "data" kvs)); simpl; eauto.
  - destruct (is_str _ "sentence"); [|eauto].
    destruct (from_option id JNull (obj_lookup "data" kvs)); simpl; eauto.
Qed.

Variable generate_content : string -> string -> result Response.
Variable py_strip : string -> string.
Variable json_loads : string -> option json.

(** [process_item] once the service has answered and the text of the
    answer can be read: what is left is the parse and [decode], and
    nothing escapes. *)
Lemma process_item_of_reply item response reply :
  generate_content (text item) (translation item) = Ok response ->
  response_text response = Ok reply ->
  process_item generate_content py_strip json_loads item
  = Ok (match json_loads (clean_markdown py_strip (py_strip reply)) with
        | Some data =>
            match decode (item_id item) data with
            | Ok r => r
            | Raise _ => None
            end
        | None => None
        end).
Proof.
  intros Hg Ht. unfold process_item. rewrite Hg. simpl. rewrite Ht. simpl.
  destruct (json_loads _) as [data|]; simpl; [|by rewrite ?Ht].
  destruct (decode_ok_or_AttributeError (item_id item) data) as [[r ->]| ->]; done.
Qed.

(** [process_item] raises in two cases only, both through the clause
    for [json.JSONDecodeError]: the service call raised that exception
    (then [response] is unbound), or reading [response.text] did. *)
Lemma process_item_raises item e :
  process_item generate_content py_strip json_loads item = Raise e <->
  (generate_content (text item) (translation item) = Raise JSONDecodeError /\
   e = UnboundLocalError) \/
  (exists response,
     generate_content (text item) (translation item) = Ok response /\
     response_text response = Raise JSONDecodeError /\ e = JSONDecodeError).
Proof.
  unfold process_item.
  destruct (generate_content (text item) (translation item)) as [response|e0] eqn:Hg;
    cbn [result_bind try_except].
  - destruct (response_text response) as [reply|e1] eqn:Ht; cbn [result_bind try_except].
    + destruct (json_loads _) as [data|]; cbn [result_bind try_except].
      * destruct (decode_ok_or_AttributeError (item_id item) data) as [[r ->]| ->];
          cbn [try_except];
          (split; [discriminate | intros [[? _]|(? & ? & ? & _)]; congruence]).
      * rewrite ?Ht. cbn [result_bind].
        split; [discriminate | intros [[? _]|(? & ? & ? & _)]; congruence].
    + destruct e1; cbn [try_except]; rewrite ?Ht; cbn [result_bind];
        try (split; [discriminate | intros [[? _]|(? & ? & ? & _)]; congruence]).
      split.
      * intros [= <-]. right. by exists response.
      * intros [[? _]|(? & _ & _ & ->)]; [discriminate | done].
  - destruct e0; cbn [try_except];
      try (split; [discriminate | intros [[? _]|(? & ? & _)]; congruence]).
    split.
    + intros [= <-]. by left.
    + intros [[_ ->]|(? & ? & _)]; [done | discriminate].
Qed.
End GeminiFacts.

(** C5 as stated fails: a "word" reply that carries only
    [english_word] decodes to a variant, the three missing fields
    being filled with empty strings. *)
Lemma decode_builds_partial_word :
  obj_lookup "example_sentence" [("english_word", JStr "cat")] = None /\
  gemini_client.decode "id1"
    (JObj [("type", JStr "word"); ("data", JObj [("english_word", JStr "cat")])])
  = Ok (Some (gemini_client.ProcessedItem_word "id1"
                (gemini_client.mkProcessedWord (JStr "cat") (JStr "") (JStr "") (JStr "")))).
Proof. split; reflexivity. Qed.

Import scraper gemini_client anki_client main.
Import pass_outline.

Lemma mbind_unfold {A B} (m : M A) (k : A -> M B) (w : World) :
  (m ≫= k) w = match m w with
               | (Ok a, w') => k a w'
               | (Raise e, w') => (Raise e, w')
               end.
Proof. reflexivity. Qed.

Section Effects.
Variable env : Env.

Lemma after_nil w : after w [] = w.
Proof. unfold after. rewrite app_nil_r. by destruct w. Qed.

Lemma after_after w evs1 evs2 : after (after w evs1) evs2 = after w (evs1 ++ evs2).
Proof. unfold after. simpl. by rewrite app_assoc. Qed.

Lemma log_after ev w : log ev w = after w [ev].
Proof. reflexivity. Qed.

(** A Source call that raises has raised Playwright's error, in a
    session that did not go well. *)
Lemma delete_favorite_item_effect item w :
  exists r s,
    delete_favorite_item env item w
    = (r, mkWorld s (disk w) (anki w) (trace w ++ [EvDelete item])) /\
    (forall e, r = Raise e -> e = PlaywrightError /\ session env (trace w) <> Up) /\
    (session env (trace w) = Up -> exists ok, r = Ok ok).
Proof.
  unfold delete_favorite_item, scraper.delete_favorite_item.
  destruct (delete_on_page (has_text env) (click env) item (source w)) as [ok s'] eqn:Ed.
  destruct (session env (trace w)) eqn:Es; cbn [in_session];
    eexists _, _; (split; [reflexivity|]); split.
  - discriminate.
  - eauto.
  - intros e He. destruct ok; simpl in He; by inversion He.
  - discriminate.
  - by intros e [= <-].
  - discriminate.
  - by intros e [= <-].
  - discriminate.
Qed.

(** The loop over the items to delete: a delete call per item, in
    order, up to the first call that raises. *)
Lemma delete_each_shape items : forall n w,
  exists r k s,
    delete_each env items n w
    = (r, mkWorld s (disk w) (anki w) (trace w ++ (EvDelete <$> take k items))) /\
    (k <= length items)%nat /\
    (forall n', r = Ok n' -> k = length items) /\
    (forall e, r = Raise e -> e = PlaywrightError /\ exists calls, session env calls <> Up) /\
    (items = [] -> s = source w).
Proof.
  induction items as [|item rest IH]; intros n w.
  - exists (Ok n), 0%nat, (source w). simpl. unfold mret, M_ret, ret.
    rewrite app_nil_r. destruct w. repeat split; auto; discriminate.
  - cbn [delete_each]. rewrite mbind_unfold.
    destruct (delete_favorite_item_effect item w) as (r & s & -> & Hraise & _).
    destruct r as [ok|e].
    + edestruct IH as (r' & k & s' & -> & Hk & Hok & He & _).
      exists r', (S k), s'. cbn [source disk anki trace take fmap list_fmap length].
      rewrite <- app_assoc. split; [reflexivity|]. split; [lia|].
      split; [|split; [exact He | discriminate]].
      intros n' Hn. by rewrite (Hok n' Hn).
    + exists (Raise e), 1%nat, s. cbn [take fmap list_fmap length].
      rewrite take_0. split; [reflexivity|]. split; [lia|].
      split; [discriminate|]. split; [|discriminate].
      intros e' [= <-]. destruct (Hraise e eq_refl) as [-> Hs]. eauto.
Qed.

Lemma delete_each_returns items : forall n w,
  (forall calls, session env calls = Up) ->
  exists n', (delete_each env items n w).1 = Ok n'.
Proof.
  induction items as [|item rest IH]; intros n w Hup; [by exists n|].
  cbn [delete_each]. rewrite mbind_unfold.
  destruct (delete_favorite_item_effect item w) as (r & s & -> & _ & Hr).
  destruct (Hr (Hup _)) as [ok ->]. by apply IH.
Qed.

Lemma fetch_favorites_effect limit w :
  exists r,
    fetch_favorites env limit w = (r, log (EvFetch limit) w) /\
    (forall items, r = Ok items -> items = fetched env limit (source w)) /\
    (forall e, r = Raise e -> e = PlaywrightError /\ session env (trace w) <> Up) /\
    (session env (trace w) = Up -> r = Ok (fetched env limit (source w))).
Proof.
  unfold fetch_favorites. eexists. split; [reflexivity|]. repeat split.
  - by intros items ?%fetch_favorites_Ok.
  - unfold scraper.fetch_favorites in H. by apply in_session_Raise in H as [? _].
  - unfold scraper.fetch_favorites in H. by apply in_session_Raise in H as [_ ?].
  - intros ->. reflexivity.
Qed.

Lemma stale_in_elem known items it :
  it ∈ stale_in known items <-> item_id it ∈ known /\ it ∈ items.
Proof. unfold stale_in. by rewrite list_elem_of_filter. Qed.

Lemma new_in_elem known items it :
  it ∈ new_in known items -> (item_id it ∉ known) /\ it ∈ items.
Proof. unfold new_in. by intros ?%list_elem_of_filter. Qed.

(** [_load_and_filter_favorites]: the Source calls made are those of
    the cleanup, up to the first one that raises; the ledger file and
    Anki are not touched. *)
Lemma load_and_filter_shape limit known skip w :
  exists r s evs,
    _load_and_filter_favorites env limit known skip w
    = (r, mkWorld s (disk w) (anki w) (trace w ++ evs)) /\
    evs `prefix_of` cleanup_events env limit known skip (source w) /\
    (forall new_favorites, r = Ok new_favorites ->
       evs = cleanup_events env limit known skip (source w) /\
       new_favorites
       = new_in known (if skip then [] else fetched env limit s)) /\
    (forall e, r = Raise e ->
       skip = false /\ e = PlaywrightError /\ exists calls, session env calls <> Up) /\
    (skip = true \/ stale_in known (fetched env limit (source w)) = [] -> s = source w).
Proof.
  unfold _load_and_filter_favorites, cleanup_events. rewrite mbind_unfold.
  destruct skip; cbn [negb].
  - exists (Ok []), (source w), []. unfold mret, M_ret, ret. rewrite app_nil_r.
    split; [by destruct w|]. split; [done|]. split; [|split; [discriminate | done]].
    by intros new [= <-].
  - rewrite mbind_unfold.
    destruct (fetch_favorites_effect limit w) as (r1 & -> & Hok1 & Hraise1 & _).
    destruct r1 as [items|e].
    + rewrite (Hok1 items eq_refl).
      fold (stale_in known (fetched env limit (source w))).
      destruct (stale_in known (fetched env limit (source w))) as [|st stale] eqn:Est.
      * exists (Ok (new_in known (fetched env limit (source w)))), (source w),
          [EvFetch limit].
        unfold mret, M_ret, ret. cbn [log source disk anki trace].
        split; [reflexivity|]. split; [done|]. split; [|split; [discriminate | done]].
        by intros new [= <-].
      * rewrite mbind_unfold.
        destruct (delete_each_shape (st :: stale) 0 (log (EvFetch limit) w))
          as (rd & k & s' & -> & Hk & Hokd & Hraised & _).
        cbn [log source disk anki trace].
        destruct rd as [n'|e].
        -- rewrite (Hokd n' eq_refl), firstn_all.
           lazymatch goal with
           | |- context [fetch_favorites env limit ?w0] =>
               destruct (fetch_favorites_effect limit w0) as (r2 & -> & Hok2 & Hraise2 & _)
           end.
           cbn [log source disk anki trace] in *.
           exists (match r2 with
                   | Ok all_favorites => Ok (new_in known all_favorites)
                   | Raise e => Raise e
                   end), s',
             (EvFetch limit :: (EvDelete <$> st :: stale) ++ [EvFetch limit]).
           split; [destruct r2; unfold mret, M_ret, ret, log;
                   cbn [source disk anki trace];
                   rewrite <- !app_assoc; cbn [app]; reflexivity|].
           split; [done|]. split; [|split].
           ++ destruct r2 as [items2|e]; [|discriminate].
              intros new [= <-]. split; [done|]. by rewrite (Hok2 items2 eq_refl).
           ++ destruct r2 as [items2|e]; [discriminate|].
              intros e' [= <-]. destruct (Hraise2 e eq_refl) as [-> Hs]. eauto.
           ++ intros [?|?]; discriminate.
        -- exists (Raise e), s', (EvFetch limit :: (EvDelete <$> take k (st :: stale))).
           split; [rewrite <- !app_assoc; cbn [app]; reflexivity|].
           split; [|split; [|split]].
           ++ apply prefix_cons, prefix_app_r.
              destruct (prefix_take (st :: stale) k) as [tl Htl].
              exists (EvDelete <$> tl). rewrite <- fmap_app. by rewrite <- Htl.
           ++ discriminate.
           ++ intros e' [= <-]. destruct (Hraised e eq_refl) as [-> ?]. auto.
           ++ intros [?|?]; discriminate.
    + exists (Raise e), (source w), [EvFetch limit].
      split; [reflexivity|]. split; [|split; [|split]].
      * fold (stale_in known (fetched env limit (source w))).
        destruct (stale_in known (fetched env limit (source w)));
          [done | apply prefix_cons, prefix_nil].
      * discriminate.
      * intros e' [= <-]. destruct (Hraise1 e eq_refl) as [-> Hs]. eauto.
      * done.
Qed.
End Effects.

Import pass_outcomes.

Section Calls.
Variable env : Env.

Lemma process_item_effect item w :
  process_item env item w = (enrichment env item, log (EvProcess item) w).
Proof. reflexivity. Qed.

Lemma enrich_enrichment item :
  enrich env item
  = match enrichment env item with
    | Ok (Some p) => Some (note_of env p)
    | _ => None
    end.
Proof. reflexivity. Qed.

Lemma enriched_cons item rest :
  enriched env (item :: rest)
  = match enrich env item with
    | Some note => note :: enriched env rest
    | None => enriched env rest
    end.
Proof. unfold enriched. csimpl. by destruct (enrich env item). Qed.

Lemma enriched_ids_cons item rest :
  enriched_ids env (item :: rest)
  = match enrich env item with
    | Some _ => {[item_id item]} ∪ enriched_ids env rest
    | None => enriched_ids env rest
    end.
Proof.
  unfold enriched_ids. rewrite filter_cons.
  destruct (enrich env item) as [n|] eqn:En.
  - rewrite decide_True by eauto. reflexivity.
  - rewrite decide_False; [reflexivity|]. by intros [? ?].
Qed.

Lemma length_enriched items : (length (enriched env items) <= length items)%nat.
Proof.
  unfold enriched. induction items as [|it rest IH]; csimpl; [lia|].
  destruct (enrich env it); csimpl; lia.
Qed.

(** The enrichment loop: a call per item, in order, up to the dry-run
    cap or to the first call that raises. *)
Lemma process_each_outcome limit dry items : forall i notes ids w,
  exists k,
    (k <= length items)%nat /\
    (forall it, it ∈ take k items -> returns (enrichment env it) = true) /\
    ((process_each env limit dry i items notes ids w
      = (Ok (notes ++ enriched env (take k items), enriched_ids env (take k items) ∪ ids),
         after w (EvProcess <$> take k items)) /\
      (dry = false -> k = length items) /\
      (dry = true -> k = Nat.min (length items) (Z.to_nat (limit - Z.of_nat i))))
     \/
     (exists item e,
        items !! k = Some item /\ enrichment env item = Raise e /\
        process_each env limit dry i items notes ids w
        = (Raise e, after w (EvProcess <$> take (S k) items)) /\
        (dry = true -> Z.of_nat i + Z.of_nat k < limit))).
Proof.
  induction items as [|item rest IH]; intros i notes ids w.
  - exists 0%nat. split; [simpl; lia|]. split; [by intros it ?%elem_of_nil|]. left.
    unfold enriched_ids. cbn [take process_each]. rewrite filter_nil. simpl.
    unfold mret, M_ret, ret. rewrite after_nil, app_nil_r, union_empty_l_L.
    split; [done|]. split; [done|]. intros _. cbn [length]. lia.
  - cbn [process_each].
    destruct (dry && (Z.of_nat i >=? limit)) eqn:Ebrk.
    + exists 0%nat. split; [simpl; lia|]. split; [by intros it ?%elem_of_nil|]. left.
      unfold enriched_ids. cbn [take]. rewrite filter_nil. simpl.
      unfold mret, M_ret, ret. rewrite after_nil, app_nil_r, union_empty_l_L.
      split; [done|]. split; [intros ->; discriminate|].
      intros ->. cbn [andb] in Ebrk. apply Z.geb_le in Ebrk. cbn [length].
      rewrite Z2Nat.nonpos by lia. lia.
    + assert (Hlim : dry = true -> Z.of_nat i < limit).
      { intros ->. simpl in Ebrk. lia. }
      rewrite mbind_unfold, process_item_effect.
      destruct (enrichment env item) as [r|e] eqn:Er.
      * assert (Hstep : forall notes' ids',
                  (match r with
                   | Some p =>
                       notes' = notes ++ [note_of env p] /\
                       ids' = {[item_id item]} ∪ ids
                   | None => notes' = notes /\ ids' = ids
                   end) ->
                  exists k,
                    (k <= length (item :: rest))%nat /\
                    (forall it, it ∈ take k (item :: rest) ->
                       returns (enrichment env it) = true) /\
                    ((process_each env limit dry (S i) rest notes' ids'
                        (log (EvProcess item) w)
                      = (Ok (notes ++ enriched env (take k (item :: rest)),
                             enriched_ids env (take k (item :: rest)) ∪ ids),
                         after w (EvProcess <$> take k (item :: rest))) /\
                      (dry = false -> k = length (item :: rest)) /\
                      (dry = true ->
                       k = Nat.min (length (item :: rest))
                                   (Z.to_nat (limit - Z.of_nat i))))
                     \/
                     (exists item0 e,
                        (item :: rest) !! k = Some item0 /\
                        enrichment env item0 = Raise e /\
                        process_each env limit dry (S i) rest notes' ids'
                          (log (EvProcess item) w)
                        = (Raise e, after w (EvProcess <$> take (S k) (item :: rest))) /\
                        (dry = true -> Z.of_nat i + Z.of_nat k < limit)))).
        { intros notes' ids' Hni.
          destruct (IH (S i) notes' ids' (log (EvProcess item) w))
            as (k & Hk & Hret & Hcase).
          exists (S k). split; [simpl; lia|]. split.
          { intros it. cbn [take]. rewrite elem_of_cons. intros [->|Hit]; [|by apply Hret].
            by rewrite Er. }
          destruct Hcase as [(-> & Hf & Ht)|(it' & e & Hit' & He & -> & Ht)].
          - left. cbn [take].
            rewrite enriched_cons, enriched_ids_cons, enrich_enrichment, Er.
            rewrite log_after, after_after. cbn [fmap list_fmap app].
            split; [|split].
            + destruct r as [p|]; destruct Hni as [-> ->].
              * rewrite <- app_assoc. cbn [app].
                rewrite (assoc_L (∪) (enriched_ids env (take k rest))).
                rewrite (comm_L (∪) (enriched_ids env (take k rest)) {[item_id item]}).
                reflexivity.
              * reflexivity.
            + intros Hd. simpl. by rewrite (Hf Hd).
            + intros Hd. specialize (Ht Hd). specialize (Hlim Hd). cbn [length]. lia.
          - right. exists it', e. cbn [lookup list_lookup].
            split; [done|]. split; [done|]. split.
            + rewrite log_after, after_after. reflexivity.
            + intros Hd. specialize (Ht Hd). lia. }
        destruct r as [p|]; by apply Hstep.
      * exists 0%nat. split; [simpl; lia|]. split; [by intros it ?%elem_of_nil|]. right.
        exists item, e. split; [done|]. split; [done|]. split; [|intros Hd; specialize (Hlim Hd); lia].
        rewrite log_after. reflexivity.
Qed.

Lemma add_note_exact note w :
  exists r,
    add_note env note w
    = (Ok r, mkWorld (source w) (disk w) (with_notes env [note] (anki w))
                     (trace w ++ [EvAddNote note])) /\
    negb (is_None r) = accepted env note.
Proof.
  unfold add_note, anki_client.add_note.
  destruct (anki_client._invoke (py_repr env) (addNote env note)) as [r|e] eqn:E;
    cbn [try_except].
  - exists r.
    assert (Hacc : accepted env note = negb (is_None r)).
    { unfold accepted. by rewrite E. }
    split; [|done]. unfold with_notes. rewrite filter_cons, filter_nil, Hacc.
    destruct (is_None r); cbn [negb]; case_decide; try done.
    rewrite app_nil_r. by destruct (anki w).
  - exists JNull.
    assert (Hacc : accepted env note = false).
    { unfold accepted. by rewrite E. }
    split; [|by rewrite Hacc]. unfold with_notes. rewrite filter_cons, filter_nil, Hacc.
    cbn [is_None]. case_decide; try done.
    rewrite app_nil_r. by destruct (anki w).
Qed.

Lemma with_notes_app ns1 ns2 a :
  with_notes env ns2 (with_notes env ns1 a) = with_notes env (ns1 ++ ns2) a.
Proof. unfold with_notes. simpl. by rewrite filter_app, app_assoc. Qed.

Lemma with_notes_nil a : with_notes env [] a = a.
Proof. unfold with_notes. rewrite filter_nil, app_nil_r. by destruct a. Qed.

Lemma add_each_exact new_favorites notes : forall i succ w,
  (i + length notes <= length new_favorites)%nat ->
  add_each env new_favorites i notes succ w
  = (Ok (succ ++ credited env (drop i new_favorites) notes),
     mkWorld (source w) (disk w) (with_notes env notes (anki w))
             (trace w ++ (EvAddNote <$> notes))).
Proof.
  induction notes as [|note rest IH]; intros i succ w Hlen; simpl.
  - unfold credited. rewrite zip_with_nil_r. simpl.
    rewrite !app_nil_r, with_notes_nil. by destruct w.
  - simpl in Hlen.
    destruct (lookup_lt_is_Some_2 new_favorites i ltac:(lia)) as [it Hit].
    rewrite mbind_unfold. unfold index. rewrite Hit.
    rewrite mbind_unfold.
    destruct (add_note_exact note w) as (r & -> & Hacc).
    rewrite (drop_S _ _ _ Hit). unfold credited. simpl.
    rewrite filter_cons. simpl. rewrite <- Hacc.
    change (note :: rest) with ([note] ++ rest). rewrite <- with_notes_app.
    destruct (negb (is_None r)) eqn:Er.
    + rewrite decide_True by done. rewrite IH by lia.
      simpl. unfold credited. rewrite <- !app_assoc. simpl. reflexivity.
    + rewrite decide_False by done. rewrite IH by lia.
      simpl. unfold credited. rewrite <- !app_assoc. simpl. reflexivity.
Qed.

Lemma add_each_overflow new_favorites notes : forall i succ w,
  (i <= length new_favorites)%nat ->
  (length new_favorites < i + length notes)%nat ->
  add_each env new_favorites i notes succ w
  = (Raise IndexError,
     mkWorld (source w) (disk w)
             (with_notes env (take (length new_favorites - i) notes) (anki w))
             (trace w ++ (EvAddNote <$> take (length new_favorites - i) notes))).
Proof.
  induction notes as [|note rest IH]; intros i succ w Hi Hlen; simpl in Hlen; [lia|].
  cbn [add_each]. rewrite mbind_unfold. unfold index.
  destruct (new_favorites !! i) as [it|] eqn:Hit.
  - apply lookup_lt_Some in Hit.
    rewrite mbind_unfold.
    destruct (add_note_exact note w) as (r & -> & Hacc).
    replace (length new_favorites - i)%nat with (S (length new_favorites - S i)) by lia.
    cbn [take]. change (note :: take (length new_favorites - S i) rest)
      with ([note] ++ take (length new_favorites - S i) rest).
    rewrite <- with_notes_app.
    destruct (negb (is_None r)); rewrite IH by lia;
      cbn [source disk anki trace]; by rewrite fmap_app, <- !app_assoc.
  - apply lookup_ge_None in Hit.
    replace (length new_favorites - i)%nat with 0%nat by lia.
    cbn [take fmap list_fmap]. rewrite with_notes_nil, app_nil_r. by destruct w.
Qed.

Lemma ensure_deck_exact deck model w :
  ensure_deck_and_model env deck model w
  = match deck_reply env deck with
    | Ok _ => (Ok tt, mkWorld (source w) (disk w) (with_deck deck (anki w))
                              (trace w ++ [EvEnsureDeck deck model]))
    | Raise e => (Raise e, mkWorld (source w) (disk w) (anki w)
                                   (trace w ++ [EvEnsureDeck deck model]))
    end.
Proof.
  unfold ensure_deck_and_model, anki_client.ensure_deck_and_model, deck_reply.
  by destruct (anki_client._invoke _ _).
Qed.

Lemma save_ids_exact ids w :
  main.save_ids ids w
  = ((storage.save_ids (elements ids) (disk w)).1,
     mkWorld (source w) (storage.save_ids (elements ids) (disk w)).2 (anki w)
             (trace w ++ [EvSaveIds ids])).
Proof.
  unfold main.save_ids. by destruct (storage.save_ids (elements ids) (disk w)).
Qed.

Lemma load_ids_effect w :
  load_ids env w = (storage.load_ids (py_repr env) (disk w), log EvLoadIds w).
Proof. reflexivity. Qed.

Lemma known_ids_Ok w ids :
  storage.load_ids (py_repr env) (disk w) = Ok ids -> known_ids env w = ids.
Proof. unfold known_ids. by intros ->. Qed.

Lemma known_ids_disk w w' : disk w' = disk w -> known_ids env w' = known_ids env w.
Proof. unfold known_ids. by intros ->. Qed.

(** The ledger load and the cleanup: the calls made, and what they
    leave untouched. *)
Lemma prologue_shape limit skip w :
  exists r s evs,
    prologue env limit skip w
    = (r, mkWorld s (disk w) (anki w) (trace w ++ EvLoadIds :: evs)) /\
    evs `prefix_of` cleanup_events env limit (known_ids env w) skip (source w) /\
    (forall new_favorites, r = Ok new_favorites ->
       storage.load_ids (py_repr env) (disk w) = Ok (known_ids env w) /\
       evs = cleanup_events env limit (known_ids env w) skip (source w) /\
       new_favorites
       = new_in (known_ids env w) (if skip then [] else fetched env limit s)) /\
    (forall e, r = Raise e ->
       (e = IOError /\ storage.file (disk w) = storage.NoStat /\ evs = [] /\ s = source w) \/
       (skip = false /\ e = PlaywrightError /\ exists calls, session env calls <> Up)) /\
    (skip = true \/ stale_in (known_ids env w) (fetched env limit (source w)) = [] ->
     s = source w).
Proof.
  unfold prologue. rewrite mbind_unfold, load_ids_effect.
  destruct (storage.load_ids (py_repr env) (disk w)) as [ids|e] eqn:El.
  - rewrite (known_ids_Ok _ _ El).
    destruct (load_and_filter_shape env limit ids skip (log EvLoadIds w))
      as (r & s & evs & -> & Hpre & Hok & Hraise & Hs).
    exists r, s, evs. cbn [log source disk anki trace] in *.
    rewrite <- app_assoc. cbn [app].
    split; [reflexivity|]. split; [done|]. split; [|split; [|done]].
    + intros new Hr. split; [done|]. by apply Hok.
    + intros e Hr. right. by apply Hraise.
  - exists (Raise e), (source w), []. cbn [log].
    split; [reflexivity|]. split; [apply prefix_nil|].
    split; [discriminate|]. split; [|done].
    intros e' [= <-]. left. rewrite load_ids_value in El.
    destruct (storage.file (disk w)) as [| | | | | |j]; try discriminate.
    + by injection El as <-.
    + destruct j; discriminate.
Qed.

Lemma run_once_prologue limit dry skip w :
  run_once env limit dry skip w
  = match prologue env limit skip w with
    | (Ok new_favorites, w0) =>
        match new_favorites with
        | [] => (Ok tt, w0)
        | _ =>
            (r ← _process_new_favorites env new_favorites limit dry;
             let '(notes_to_add, newly_processed_ids) := r in
             match notes_to_add with
             | [] => mret tt
             | _ =>
                 if dry then mret tt
                 else
                   successfully_added_items ←
                     _add_notes_to_anki env notes_to_add new_favorites (known_ids env w);
                   _delete_processed_favorites env successfully_added_items skip
             end) w0
        end
    | (Raise e, w0) => (Raise e, w0)
    end.
Proof.
  unfold run_once, prologue. rewrite !mbind_unfold, load_ids_effect.
  destruct (storage.load_ids (py_repr env) (disk w)) as [ids|e] eqn:El; [|done].
  rewrite (known_ids_Ok _ _ El). rewrite !mbind_unfold.
  destruct (_load_and_filter_favorites env limit ids skip (log EvLoadIds w))
    as [[new|e] w0]; [|done].
  by destruct new.
Qed.
End Calls.

Section Outcome.
Variable env : Env.

Lemma candidates_Ok limit skip w new_favorites :
  (prologue env limit skip w).1 = Ok new_favorites ->
  candidates env limit skip w = new_favorites.
Proof. unfold candidates. by intros ->. Qed.

Lemma process_new_favorites_outcome new_favorites limit dry w :
  config.GEMINI_API_KEY (cfg env) <> "" ->
  exists k,
    (k <= length new_favorites)%nat /\
    (forall it, it ∈ take k new_favorites -> returns (enrichment env it) = true) /\
    ((_process_new_favorites env new_favorites limit dry w
      = (Ok (enriched env (take k new_favorites), enriched_ids env (take k new_favorites)),
         after w (EvProcess <$> take k new_favorites)) /\
      (dry = false -> k = length new_favorites) /\
      (dry = true -> k = Nat.min (length new_favorites) (Z.to_nat limit)))
     \/
     (exists item e,
        new_favorites !! k = Some item /\ enrichment env item = Raise e /\
        _process_new_favorites env new_favorites limit dry w
        = (Raise e, after w (EvProcess <$> take (S k) new_favorites)) /\
        (dry = true -> Z.of_nat k < limit))).
Proof.
  intros Hkey. unfold _process_new_favorites. rewrite mbind_unfold.
  unfold GeminiProcessor, gemini_client.GeminiProcessor, nonempty.
  destruct (String.eqb_spec (config.GEMINI_API_KEY (cfg env)) ""); [done|].
  cbn [negb].
  destruct (process_each_outcome env limit dry new_favorites 0 [] ∅ w)
    as (k & Hk & Hret & Hcase).
  exists k. split; [done|]. split; [done|].
  destruct Hcase as [(-> & Hf & Ht)|(item & e & Hit & He & -> & Ht)].
  - left. rewrite union_empty_r_L. cbn [app]. split; [done|]. split; [done|].
    intros Hd. specialize (Ht Hd). by replace (limit - Z.of_nat 0) with limit in Ht by lia.
  - right. exists item, e. split; [done|]. split; [done|]. split; [done|].
    intros Hd. specialize (Ht Hd). lia.
Qed.

Lemma add_notes_exact notes_to_add new_favorites ids w :
  (length notes_to_add <= length new_favorites)%nat ->
  _add_notes_to_anki env notes_to_add new_favorites ids w
  = match deck_reply env (word_deck env) with
    | Raise e => (Raise e, after w [ensure_word env])
    | Ok _ =>
        match deck_reply env (sentence_deck env) with
        | Raise e =>
            (Raise e,
             mkWorld (source w) (disk w) (with_deck (word_deck env) (anki w))
                     (trace w ++ [ensure_word env; ensure_sentence env]))
        | Ok _ =>
            let saved := list_to_set (item_id <$> credited env new_favorites notes_to_add) ∪ ids in
            (match (storage.save_ids (elements saved) (disk w)).1 with
             | Ok _ => Ok (credited env new_favorites notes_to_add)
             | Raise e => Raise e
             end,
             mkWorld (source w)
                     (storage.save_ids (elements saved) (disk w)).2
                     (with_notes env notes_to_add
                        (with_deck (sentence_deck env) (with_deck (word_deck env) (anki w))))
                     (trace w ++ [ensure_word env; ensure_sentence env] ++
                      (EvAddNote <$> notes_to_add) ++ [EvSaveIds saved]))
        end
    end.
Proof.
  intros Hlen. unfold _add_notes_to_anki.
  rewrite mbind_unfold, ensure_deck_exact. fold (word_deck env).
  destruct (deck_reply env (word_deck env)) as [j1|e]; [|reflexivity].
  rewrite mbind_unfold, ensure_deck_exact. fold (sentence_deck env).
  destruct (deck_reply env (sentence_deck env)) as [j2|e].
  2: { cbn [source disk anki trace]. unfold ensure_word, ensure_sentence.
       by rewrite <- !app_assoc. }
  rewrite mbind_unfold, add_each_exact by (simpl; lia).
  rewrite drop_0. cbn [app source disk anki trace].
  rewrite mbind_unfold, save_ids_exact. cbn [source disk anki trace fst snd].
  cbv zeta.
  destruct (storage.save_ids _ (disk w)) as [[[]|e] d];
    cbn [fst snd]; unfold mret, M_ret, ret, ensure_word, ensure_sentence;
    by rewrite <- !app_assoc.
Qed.

(** Every pass ends in one of the ways of [pass_outcome]. *)
Lemma run_once_outcome limit dry skip w :
  pass_outcome env limit dry skip w
    (run_once env limit dry skip w).1 (run_once env limit dry skip w).2.
Proof.
  rewrite run_once_prologue.
  destruct (prologue_shape env limit skip w)
    as (r0 & s0 & evs & Ep & Hpre & Hok & Hraise & Hs).
  assert (Ew0 : (prologue env limit skip w).2
                = mkWorld s0 (disk w) (anki w) (trace w ++ EvLoadIds :: evs))
    by (by rewrite Ep).
  assert (Er0 : (prologue env limit skip w).1 = r0) by (by rewrite Ep).
  rewrite Ep. rewrite <- Ew0.
  set (w0 := (prologue env limit skip w).2) in *.
  destruct r0 as [new|e]; [|by apply pass_aborts_early].
  pose proof (candidates_Ok _ _ _ _ Er0) as Ecand.
  destruct new as [|n0 new'] eqn:Enew; [by apply pass_nothing_new|].
  rewrite <- Enew.
  assert (Hne : candidates env limit skip w <> []) by (by rewrite Ecand).
  rewrite <- Enew in Ecand, Er0, Hok.
  assert (Hskip : skip = false).
  { destruct skip; [|done]. destruct (Hok new eq_refl) as (_ & _ & Hn).
    by rewrite Ecand, Hn in Hne. }
  destruct (String.eqb_spec (config.GEMINI_API_KEY (cfg env)) "") as [Hkey|Hkey].
  { rewrite mbind_unfold. unfold _process_new_favorites.
    rewrite mbind_unfold. unfold GeminiProcessor, gemini_client.GeminiProcessor.
    rewrite Hkey. cbn [nonempty String.eqb negb fst snd]. by apply pass_no_key. }
  rewrite mbind_unfold.
  destruct (process_new_favorites_outcome new limit dry w0 Hkey)
    as (k & Hk & Hret & [(-> & Hf & Ht)|(item & e & Hit & He & -> & Ht)]).
  2: { cbn [fst snd]. rewrite <- Ecand in *. by eapply pass_enrichment_raises. }
  destruct (enriched env (take k new)) as [|nt notes'] eqn:En.
  { unfold mret, M_ret, ret. cbn [fst snd]. rewrite <- Ecand in *.
    apply pass_stops_after_enrichment; auto. }
  destruct dry.
  { unfold mret, M_ret, ret. cbn [fst snd]. rewrite <- Ecand in *.
    apply pass_stops_after_enrichment; auto. }
  assert (Hen : enriched env (take k new) <> []) by (by rewrite En).
  replace (nt :: notes') with (enriched env (take k new)) by done.
  clear En nt notes'.
  rewrite (Hf eq_refl), firstn_all in *. subst skip.
  rewrite mbind_unfold, add_notes_exact by apply length_enriched.
  rewrite <- Ecand in *.
  destruct (deck_reply env (word_deck env)) as [j1|e] eqn:E1.
  2: { cbn [fst snd]. unfold after. rewrite Ew0. cbn [source disk anki trace].
       rewrite <- app_assoc.
       replace s0 with (cleaned env limit false w)
         by (unfold cleaned; fold w0; by rewrite Ew0).
       replace (trace w ++ EvLoadIds :: evs) with (prelude env limit false w)
         by (unfold prelude; fold w0; by rewrite Ew0).
       by apply pass_word_deck_fails. }
  destruct (deck_reply env (sentence_deck env)) as [j2|e] eqn:E2.
  2: { cbn [fst snd]. unfold after. rewrite Ew0. cbn [source disk anki trace].
       rewrite <- app_assoc.
       replace s0 with (cleaned env limit false w)
         by (unfold cleaned; fold w0; by rewrite Ew0).
       replace (trace w ++ EvLoadIds :: evs) with (prelude env limit false w)
         by (unfold prelude; fold w0; by rewrite Ew0).
       by eapply pass_sentence_deck_fails. }
  cbv zeta. fold (saved_ids env limit false w).
  unfold after. rewrite Ew0. cbn [source disk anki trace].
  replace s0 with (cleaned env limit false w)
    by (unfold cleaned; fold w0; by rewrite Ew0).
  replace (trace w ++ EvLoadIds :: evs) with (prelude env limit false w)
    by (unfold prelude; fold w0; by rewrite Ew0).
  fold (written env limit false w).
  rewrite <- !app_assoc.
  destruct (storage.save_ids (elements (saved_ids env limit false w)) (disk w))
    as [[[]|e] d] eqn:Esave; cbn [fst snd].
  - fold (saved env limit false w d). by eapply pass_commits.
  - fold (saved env limit false w d). by eapply pass_save_raises.
Qed.
End Outcome.

Ltac norm_trace :=
  unfold mret, M_ret, ret;
  repeat first [rewrite <- app_assoc | rewrite app_nil_r | progress simpl].

Section Shape.
Variable env : Env.

(** The ledger load and the cleanup, in the terms of the outline. *)
Lemma prologue_outline limit skip w :
  exists evs final,
    (prologue env limit skip w).2
    = mkWorld (cleaned env limit skip w) (disk w) (anki w)
              (trace w ++ EvLoadIds :: evs) /\
    prelude env limit skip w = trace w ++ EvLoadIds :: evs /\
    evs `prefix_of` cleanup_events env limit (known_ids env w) skip (source w) /\
    candidates env limit skip w = new_in (known_ids env w) final /\
    (final = [] \/ final = fetched env limit (cleaned env limit skip w)) /\
    (skip = true -> final = []) /\
    (returns (prologue env limit skip w).1 = true ->
     evs = cleanup_events env limit (known_ids env w) skip (source w) /\
     final = (if skip then [] else fetched env limit (cleaned env limit skip w)) /\
     storage.load_ids (py_repr env) (disk w) = Ok (known_ids env w)) /\
    (skip = true \/ stale_in (known_ids env w) (fetched env limit (source w)) = [] ->
     cleaned env limit skip w = source w).
Proof.
  destruct (prologue_shape env limit skip w)
    as (r0 & s0 & evs & Ep & Hpre & Hok & Hraise & Hs).
  unfold cleaned, prelude, candidates. rewrite Ep. cbn [fst snd source trace].
  destruct r0 as [new|e].
  - destruct (Hok new eq_refl) as (Hload & Hevs & Hnew).
    exists evs, (if skip then [] else fetched env limit s0).
    split; [done|]. split; [done|]. split; [done|]. split; [done|].
    split; [destruct skip; auto|]. split; [by intros ->|]. split; [done|done].
  - exists evs, []. split; [done|]. split; [done|]. split; [done|]. split; [done|].
    split; [auto|]. split; [done|]. split; [discriminate|done].
Qed.


Lemma run_once_pair limit dry skip w :
  run_once env limit dry skip w
  = ((run_once env limit dry skip w).1, (run_once env limit dry skip w).2).
Proof. by destruct (run_once env limit dry skip w). Qed.

Lemma delete_processed_shape items w :
  exists r k s,
    _delete_processed_favorites env items false w
    = (r, mkWorld s (disk w) (anki w) (trace w ++ (EvDelete <$> take k items))) /\
    (k <= length items)%nat /\
    (r = Ok tt -> k = length items) /\
    (forall e, r = Raise e -> e = PlaywrightError /\ exists calls, session env calls <> Up) /\
    (items = [] -> s = source w).
Proof.
  unfold _delete_processed_favorites. cbn [negb]. rewrite mbind_unfold.
  destruct (delete_each_shape env items 0 w) as (r & k & s & -> & Hk & Hok & Hraise & Hnil).
  destruct r as [n|e].
  - exists (Ok tt), k, s. split; [reflexivity|]. split; [done|].
    split; [eauto|]. split; [discriminate | done].
  - exists (Raise e), k, s. split; [reflexivity|]. split; [done|].
    split; [discriminate|]. split; [|done].
    intros e' [= <-]. by apply Hraise.
Qed.

(** The calls of a pass after the ledger load and the cleanup: the
    enrichment of candidates in order, and the commit. *)
Lemma run_once_shape limit dry skip w evs final :
  prelude env limit skip w = trace w ++ EvLoadIds :: evs ->
  candidates env limit skip w = new_in (known_ids env w) final ->
  exists r s d a k commit,
    run_once env limit dry skip w
    = (r, mkWorld s d a
            (trace w ++ EvLoadIds :: evs ++
             (EvProcess <$> take k (new_in (known_ids env w) final)) ++ commit)) /\
    (dry = true ->
     (k <= Z.to_nat limit)%nat /\ commit = [] /\
     s = cleaned env limit skip w /\ d = disk w /\ a = anki w) /\
    (dry = false -> config.GEMINI_API_KEY (cfg env) <> "" ->
     (forall it, it ∈ new_in (known_ids env w) final ->
        returns (enrichment env it) = true) ->
     k = length (new_in (known_ids env w) final)) /\
    (returns (prologue env limit skip w).1 = true ->
     config.GEMINI_API_KEY (cfg env) <> "" ->
     new_in (known_ids env w) final <> [] ->
     (dry = true -> 0 < limit) -> (1 <= k)%nat) /\
    commit_events env (known_ids env w) (new_in (known_ids env w) final)
      (enriched env (take k (new_in (known_ids env w) final))) commit.
Proof.
  intros Epre Ecand.
  destruct (prologue_outline limit skip w) as (evs0 & final0 & Ew0 & Epre0 & _).
  assert (evs0 = evs) as ->.
  { rewrite Epre in Epre0. apply app_inv_head in Epre0. by injection Epre0. }
  clear Epre0 final0.
  rewrite run_once_pair.
  pose proof (run_once_outcome env limit dry skip w) as Hout.
  set (known := known_ids env w) in *.
  set (new := new_in known final) in *.
  assert (Hshort : forall (r : result unit) (k : nat),
            (dry = true -> (k <= Z.to_nat limit)%nat) ->
            (dry = false -> config.GEMINI_API_KEY (cfg env) <> "" ->
             (forall it, it ∈ new -> returns (enrichment env it) = true) ->
             k = length new) ->
            (returns (prologue env limit skip w).1 = true ->
             config.GEMINI_API_KEY (cfg env) <> "" -> new <> [] ->
             (dry = true -> 0 < limit) -> (1 <= k)%nat) ->
            exists r' s d a k' commit,
              (r, after (prologue env limit skip w).2 (EvProcess <$> take k new))
              = (r', mkWorld s d a
                       (trace w ++ EvLoadIds :: evs ++
                        (EvProcess <$> take k' new) ++ commit)) /\
              (dry = true ->
               (k' <= Z.to_nat limit)%nat /\ commit = [] /\
               s = cleaned env limit skip w /\ d = disk w /\ a = anki w) /\
              (dry = false -> config.GEMINI_API_KEY (cfg env) <> "" ->
               (forall it, it ∈ new -> returns (enrichment env it) = true) ->
               k' = length new) /\
              (returns (prologue env limit skip w).1 = true ->
               config.GEMINI_API_KEY (cfg env) <> "" -> new <> [] ->
               (dry = true -> 0 < limit) -> (1 <= k')%nat) /\
              commit_events env known new (enriched env (take k' new)) commit).
  { intros r k Hk Hall Hlow.
    exists r, (cleaned env limit skip w), (disk w), (anki w), k, [].
    rewrite Ew0. unfold after. cbn [source disk anki trace].
    rewrite app_nil_r, <- app_assoc. cbn [app].
    split; [reflexivity|]. split; [auto|]. split; [done|].
    split; [done|constructor]. }
  assert (Hfull : forall (r : result unit) d a commit,
            dry = false ->
            commit_events env known new (enriched env new) commit ->
            forall s,
            exists r' s' d' a' k' commit',
              (r, mkWorld s d a
                    (prelude env limit skip w ++ (EvProcess <$> candidates env limit skip w)
                     ++ commit))
              = (r', mkWorld s' d' a'
                       (trace w ++ EvLoadIds :: evs ++
                        (EvProcess <$> take k' new) ++ commit')) /\
              (dry = true ->
               (k' <= Z.to_nat limit)%nat /\ commit' = [] /\
               s' = cleaned env limit skip w /\ d' = disk w /\ a' = anki w) /\
              (dry = false -> config.GEMINI_API_KEY (cfg env) <> "" ->
               (forall it, it ∈ new -> returns (enrichment env it) = true) ->
               k' = length new) /\
              (returns (prologue env limit skip w).1 = true ->
               config.GEMINI_API_KEY (cfg env) <> "" -> new <> [] ->
               (dry = true -> 0 < limit) -> (1 <= k')%nat) /\
              commit_events env known new (enriched env (take k' new)) commit').
  { intros r d a commit Hdry Hc s.
    exists r, s, d, a, (length new), commit.
    rewrite firstn_all, Epre, Ecand.
    rewrite <- app_assoc. cbn [app].
    split; [reflexivity|]. split; [intros Hd; congruence|]. split; [done|].
    split; [|done]. intros _ _ Hne _. destruct new; [done|simpl; lia]. }
  inversion Hout as [e He Hr Hw
                    |He Hr Hw
                    |Hc Hkey Hr Hw
                    |k item e Hkey Hit Hret He Hlim Hr Hw
                    |k Hc Hkey Hret Hf Ht Hstop Hr Hw
                    |e Hd Hsk Hkey Hret Hen Hdeck Hr Hw
                    |e j Hd Hsk Hkey Hret Hen Hd1 Hd2 Hr Hw
                    |e d j1 j2 Hd Hsk Hkey Hret Hen Hd1 Hd2 Hsave Hr Hw
                    |d j1 j2 Hd Hsk Hkey Hret Hen Hd1 Hd2 Hsave Hr Hw].
  - rewrite <- (after_nil (prologue env limit skip w).2).
    apply (Hshort (Raise e) 0%nat); [lia| |].
    + intros _ _ _.
      unfold candidates in Ecand. rewrite He in Ecand. by rewrite <- Ecand.
    + rewrite He. discriminate.
  - rewrite <- (after_nil (prologue env limit skip w).2).
    apply (Hshort (Ok tt) 0%nat); [lia| |].
    + intros _ _ _.
      unfold candidates in Ecand. rewrite He in Ecand. by rewrite <- Ecand.
    + intros _ _ Hne. unfold candidates in Ecand. rewrite He in Ecand.
      by rewrite <- Ecand in Hne.
  - rewrite <- (after_nil (prologue env limit skip w).2).
    apply (Hshort (Raise (RuntimeError "GEMINI_API_KEY is not set in .env")) 0%nat);
      [lia| |]; by intros _ ?.
  - rewrite Ecand in *.
    apply (Hshort (Raise e) (S k)); [intros Hdry; specialize (Hlim Hdry); lia| |].
    + intros _ _ Hall. apply list_elem_of_lookup_2 in Hit.
      specialize (Hall _ Hit). rewrite He in Hall. discriminate.
    + intros; lia.
  - rewrite Ecand in *. apply (Hshort (Ok tt) k).
    + intros Hd. rewrite (Ht Hd). lia.
    + intros Hd _ _. auto.
    + intros _ _ Hne Hlim. destruct new as [|n1 new']; [done|].
      destruct dry.
      * rewrite (Ht eq_refl). cbn [length]. specialize (Hlim eq_refl). lia.
      * rewrite (Hf eq_refl). cbn [length]. lia.
  - rewrite Ecand in Hen.
    apply (Hfull (Raise e) (disk w) (anki w) [ensure_word env]); [done|constructor].
  - rewrite Ecand in Hen.
    apply (Hfull (Raise e) (disk w) (with_deck (word_deck env) (anki w))
             [ensure_word env; ensure_sentence env]); [done|constructor].
  - unfold saved.
    apply (Hfull (Raise e) d (written env limit skip w)
             ([ensure_word env; ensure_sentence env] ++
              (EvAddNote <$> enriched env (candidates env limit skip w)) ++
              [EvSaveIds (saved_ids env limit skip w)])); [done|].
    unfold saved_ids. rewrite Ecand. fold known.
    cbn [app]. rewrite <- (app_nil_r [EvSaveIds _]).
    change (@nil Event) with (EvDelete <$> []). cbn [app].
    apply commit_saved, prefix_nil.
  - destruct (delete_processed_shape
                (credited env (candidates env limit skip w)
                   (enriched env (candidates env limit skip w)))
                (saved env limit skip w d)) as (rd & k & s & Ed & Hk & _ & _ & _).
    rewrite Ed. cbn [fst snd]. unfold saved at 3. cbn [trace disk anki].
    rewrite <- !app_assoc.
    apply (Hfull rd d (written env limit skip w)); [done|].
    unfold saved_ids. rewrite Ecand. fold known.
    cbn [app]. apply commit_saved, prefix_take.
Qed.
End Shape.

Section TraceFacts.
Variable env : Env.

Lemma count_app kind (l1 l2 : list Event) :
  count kind (l1 ++ l2) = (count kind l1 + count kind l2)%nat.
Proof. unfold count. by rewrite List.filter_app, length_app. Qed.

Lemma count_cons kind ev (l : list Event) :
  count kind (ev :: l) = ((if kind ev then 1 else 0) + count kind l)%nat.
Proof. unfold count. simpl. by destruct (kind ev). Qed.

Lemma count_fmap_none {A} kind (f : A -> Event) (l : list A) :
  (forall x, kind (f x) = false) -> count kind (f <$> l) = 0%nat.
Proof.
  intros H. unfold count. induction l as [|x l IH]; csimpl; [done|].
  by rewrite H.
Qed.


Lemma cleanup_events_delete limit known skip s it :
  EvDelete it ∈ cleanup_events env limit known skip s -> item_id it ∈ known.
Proof.
  unfold cleanup_events. destruct skip; [by intros ?%elem_of_nil|].
  destruct (stale_in known (fetched env limit s)) as [|st stale] eqn:E.
  - intros H%list_elem_of_singleton. discriminate.
  - rewrite elem_of_cons, elem_of_app, list_elem_of_singleton.
    intros [?|[H|?]]; try discriminate.
    apply list_elem_of_fmap in H as (x & [= ->] & Hx).
    rewrite <- E in Hx. unfold stale_in in Hx.
    by apply list_elem_of_filter in Hx as [? _].
Qed.

Lemma cleanup_events_only_source limit known skip s ev :
  ev ∈ cleanup_events env limit known skip s ->
  is_process ev = false /\ is_add_note ev = false /\ is_save ev = false.
Proof.
  unfold cleanup_events. destruct skip; [by intros ?%elem_of_nil|].
  destruct (stale_in known (fetched env limit s)) as [|st stale].
  - by intros ->%list_elem_of_singleton.
  - rewrite elem_of_cons, elem_of_app, list_elem_of_singleton.
    intros [->|[H| ->]]; try done.
    by apply list_elem_of_fmap in H as (x & -> & _).
Qed.

Lemma count_none kind (l : list Event) :
  (forall ev, ev ∈ l -> kind ev = false) -> count kind l = 0%nat.
Proof.
  unfold count. induction l as [|x l IH]; intros H; simpl; [done|].
  rewrite (H x) by constructor. apply IH. intros ev Hev. apply H. by constructor.
Qed.

Lemma credited_elem new_favorites notes it :
  it ∈ credited env new_favorites notes ->
  it ∈ new_favorites /\ exists note, note ∈ notes /\ accepted env note = true.
Proof.
  unfold credited. intros H.
  apply list_elem_of_fmap in H as ([it' note] & -> & H).
  apply list_elem_of_filter in H as [Hacc Hzip]. simpl in *.
  split; [by eapply elem_of_zip_l|].
  exists note. split; [by eapply elem_of_zip_r | done].
Qed.

(** When every item is enriched, position [i] of the notes is the note
    of item [i], and the items credited are those whose own note was
    accepted. (When an enrichment fails the notes shift: see
    [misaligned_credit_example].) *)
Lemma credited_aligned new_favorites :
  (forall it, it ∈ new_favorites -> is_Some (enrich env it)) ->
  credited env new_favorites (enriched env new_favorites)
  = filter (fun it => from_option (accepted env) false (enrich env it) = true)
           new_favorites.
Proof.
  unfold credited, enriched. induction new_favorites as [|it rest IH]; intros Hall.
  - reflexivity.
  - destruct (Hall it) as [note Hnote]; [by left|].
    csimpl. rewrite Hnote. csimpl. rewrite !filter_cons. simpl. rewrite Hnote. simpl.
    rewrite <- IH by (intros; apply Hall; by right).
    by destruct (decide (accepted env note = true)).
Qed.
End TraceFacts.

Section Ordering.
Variable env : Env.

(** C6. The calls of a pass split into [before] and a final run of
    Source deletions [dels]. A deletion inside [before] is stale
    cleanup (the id is already in the loaded ledger). Every item of
    [dels] is new to the ledger and was credited with a write that
    returned an identifier; the pass saves the ledger at most once;
    and when [dels] is not empty, [before] ends with that one save,
    whose id set holds the id of every item of [dels]. *)
Theorem ledger_saved_before_committed_deletions limit dry skip w :
  exists before dels,
    trace (run_once env limit dry skip w).2
      = trace w ++ before ++ (EvDelete <$> dels) /\
    (forall it, EvDelete it ∈ before -> item_id it ∈ known_ids env w) /\
    (forall it, it ∈ dels ->
       (item_id it ∉ known_ids env w) /\
       exists note, EvAddNote note ∈ before /\ accepted env note = true) /\
    (count is_save (before ++ (EvDelete <$> dels)) <= 1)%nat /\
    (dels <> [] ->
     exists b ids,
       before = b ++ [EvSaveIds ids] /\ count is_save b = 0%nat /\
       forall it, it ∈ dels -> item_id it ∈ ids).
Proof.
  destruct (prologue_outline env limit skip w)
    as (evs & final & _ & Epre & Hevs & Ecand & _).
  destruct (run_once_shape env limit dry skip w evs final Epre Ecand)
    as (r & s & d & a & k & commit & -> & _ & _ & _ & Hcommit).
  cbn [snd trace].
  set (known := known_ids env w) in *.
  set (new := new_in known final) in *.
  set (pre := evs ++ (EvProcess <$> take k new)).
  assert (Hpre_del : forall it, EvDelete it ∈ EvLoadIds :: pre -> item_id it ∈ known).
  { intros it. unfold pre. rewrite elem_of_cons, elem_of_app.
    intros [?|[H|H]]; [discriminate| |].
    - eapply cleanup_events_delete. by eapply elem_of_prefix.
    - by apply list_elem_of_fmap in H as (x & ? & _). }
  assert (Hpre_save : count is_save (EvLoadIds :: pre) = 0%nat).
  { apply count_none. intros ev. unfold pre. rewrite elem_of_cons, elem_of_app.
    intros [->|[H|H]]; [done| |].
    - eapply cleanup_events_only_source. by eapply elem_of_prefix.
    - by apply list_elem_of_fmap in H as (x & -> & _). }
  assert (Hshort : forall tail,
            (forall ev, ev ∈ tail -> exists d m, ev = EvEnsureDeck d m) ->
            exists before dels,
              trace w ++ EvLoadIds :: evs ++ (EvProcess <$> take k new) ++ tail
              = trace w ++ before ++ (EvDelete <$> dels) /\
              (forall it, EvDelete it ∈ before -> item_id it ∈ known) /\
              (forall it, it ∈ dels ->
                 (item_id it ∉ known) /\
                 exists note, EvAddNote note ∈ before /\ accepted env note = true) /\
              (count is_save (before ++ (EvDelete <$> dels)) <= 1)%nat /\
              (dels <> [] ->
               exists b ids,
                 before = b ++ [EvSaveIds ids] /\ count is_save b = 0%nat /\
                 forall it, it ∈ dels -> item_id it ∈ ids)).
  { intros tail Htail. exists (EvLoadIds :: pre ++ tail), [].
    split; [unfold pre; rewrite app_nil_r, <- app_assoc; reflexivity|].
    split; [|split; [|split]].
    - intros it. rewrite app_comm_cons, elem_of_app. intros [H|H]; [by apply Hpre_del|].
      by destruct (Htail _ H) as (? & ? & ?).
    - by intros it ?%elem_of_nil.
    - rewrite app_nil_r, app_comm_cons, count_app, Hpre_save.
      rewrite count_none; [lia|]. intros ev Hev. by destruct (Htail _ Hev) as (? & ? & ->).
    - done. }
  inversion Hcommit as [| | |dels Hdels]; subst.
  - apply (Hshort []). by intros ev ?%elem_of_nil.
  - apply (Hshort [ensure_word env]). intros ev ->%list_elem_of_singleton.
    unfold ensure_word; eauto.
  - apply (Hshort [ensure_word env; ensure_sentence env]).
    intros ev. rewrite elem_of_cons, list_elem_of_singleton.
    intros [-> | ->]; unfold ensure_word, ensure_sentence; eauto.
  - set (notes := enriched env (take k new)) in *.
    set (ids := list_to_set (item_id <$> credited env new notes) ∪ known).
    set (b := EvLoadIds :: pre ++ ensure_word env :: ensure_sentence env ::
              (EvAddNote <$> notes)).
    assert (Hdel_in : forall it, it ∈ dels -> it ∈ credited env new notes).
    { intros it Hit. by eapply elem_of_prefix. }
    assert (Hb_save : count is_save b = 0%nat).
    { unfold b. rewrite app_comm_cons, count_app, Hpre_save.
      change (ensure_word env :: ensure_sentence env :: (EvAddNote <$> notes))
        with ([ensure_word env; ensure_sentence env] ++ (EvAddNote <$> notes)).
      rewrite count_app, count_fmap_none by done. reflexivity. }
    exists (b ++ [EvSaveIds ids]), dels. split; [|split; [|split; [|split]]].
    + unfold b, pre. f_equal. norm_trace. reflexivity.
    + intros it. rewrite elem_of_app, list_elem_of_singleton.
      intros [H|?]; [|discriminate]. unfold b in H.
      rewrite app_comm_cons, elem_of_app in H. destruct H as [H|H]; [by apply Hpre_del|].
      rewrite !elem_of_cons in H. destruct H as [?|[?|H]]; try discriminate.
      by apply list_elem_of_fmap in H as (x & ? & _).
    + intros it Hit%Hdel_in.
      apply credited_elem in Hit as (Hnew & note & Hnote & Hacc).
      split; [by apply new_in_elem in Hnew as [? _]|].
      exists note. split; [|done].
      rewrite elem_of_app. left. unfold b. rewrite app_comm_cons, elem_of_app. right.
      rewrite !elem_of_cons. right. right. by apply list_elem_of_fmap_2.
    + rewrite !count_app, Hb_save, count_fmap_none by done. simpl. lia.
    + intros _. exists b, ids. split; [done|]. split; [done|].
      intros it Hit%Hdel_in.
      unfold ids. apply elem_of_union_l, elem_of_list_to_set.
      by apply list_elem_of_fmap_2.
Qed.
End Ordering.

Section Stale.
Variable env : Env.


End Stale.

Section Caps.
Variable env : Env.

Lemma count_prefix kind (l1 l2 : list Event) :
  l1 `prefix_of` l2 -> count kind l2 = 0%nat -> count kind l1 = 0%nat.
Proof. intros [tl ->]. rewrite count_app. lia. Qed.

Lemma count_cleanup kind limit known skip s :
  (kind = is_process \/ kind = is_add_note \/ kind = is_save) ->
  count kind (cleanup_events env limit known skip s) = 0%nat.
Proof.
  intros Hk. apply count_none. intros ev Hev.
  destruct (cleanup_events_only_source env _ _ _ _ _ Hev) as (? & ? & ?).
  by destruct Hk as [->|[->| ->]].
Qed.




End Caps.

Section Credential.
Variable env : Env.

(** C4, as amended. With no API key, a pass first reads the ledger and
    runs the cleanup (fetch, stale deletions, second fetch). When all
    of these return, the pass returns normally if no new item is left
    and raises the RuntimeError otherwise; when one of them raises,
    the pass raises that exception. In every case nothing is enriched,
    written or saved: the calls of the pass are the ledger load and
    Source calls of the cleanup, and the ledger file and Anki are as
    before. *)
Theorem missing_key_raises_after_cleanup limit dry skip w :
  config.GEMINI_API_KEY (cfg env) = "" ->
  exists cleanup,
    cleanup `prefix_of` cleanup_events env limit (known_ids env w) skip (source w) /\
    (run_once env limit dry skip w).2
    = mkWorld (cleaned env limit skip w) (disk w) (anki w)
              (trace w ++ EvLoadIds :: cleanup) /\
    match (prologue env limit skip w).1 with
    | Raise e => (run_once env limit dry skip w).1 = Raise e
    | Ok new_favorites =>
        cleanup = cleanup_events env limit (known_ids env w) skip (source w) /\
        new_favorites
        = new_in (known_ids env w)
            (if skip then [] else fetched env limit (cleaned env limit skip w)) /\
        (run_once env limit dry skip w).1
        = match new_favorites with
          | [] => Ok tt
          | _ => Raise (RuntimeError "GEMINI_API_KEY is not set in .env")
          end
    end.
Proof.
  intros Hkey.
  destruct (prologue_outline env limit skip w)
    as (evs & final & Ew0 & _ & Hevs & Ecand & _ & _ & Hall & _).
  exists evs. split; [done|].
  rewrite run_once_prologue.
  unfold candidates in Ecand.
  destruct (prologue env limit skip w) as [r0 w0] eqn:Ep.
  cbn [fst snd] in *. subst w0.
  destruct r0 as [new|e]; [|done].
  destruct (Hall eq_refl) as (-> & -> & _).
  destruct new as [|n0 new'].
  - done.
  - rewrite mbind_unfold. unfold _process_new_favorites. rewrite mbind_unfold.
    unfold GeminiProcessor, gemini_client.GeminiProcessor. rewrite Hkey.
    done.
Qed.

(** A dry run leaves the ledger file and Anki as they were, and makes
    no save and no write. (It may still delete stale items.) *)
Lemma dry_run_keeps_ledger_and_sink limit skip w :
  disk (run_once env limit true skip w).2 = disk w /\
  anki (run_once env limit true skip w).2 = anki w /\
  count is_save (trace (run_once env limit true skip w).2) = count is_save (trace w) /\
  count is_add_note (trace (run_once env limit true skip w).2)
    = count is_add_note (trace w).
Proof.
  destruct (prologue_outline env limit skip w)
    as (evs & final & _ & Epre & Hevs & Ecand & _).
  destruct (run_once_shape env limit true skip w evs final Epre Ecand)
    as (r & s & d & a & k & commit & -> & Hdry & _).
  destruct (Hdry eq_refl) as (_ & -> & _ & -> & ->). cbn [snd trace disk anki].
  assert (Hcl : forall kind,
            kind = is_process \/ kind = is_add_note \/ kind = is_save ->
            count kind evs = 0%nat).
  { intros kind Hk. eapply count_prefix; [exact Hevs|]. by apply count_cleanup. }
  split; [done|]. split; [done|]. split.
  - rewrite !count_app, count_cons, !count_app, Hcl,
      (count_fmap_none is_save EvProcess) by auto.
    unfold count. simpl. lia.
  - rewrite !count_app, count_cons, !count_app, Hcl,
      (count_fmap_none is_add_note EvProcess) by auto.
    unfold count. simpl. lia.
Qed.

(** C5, as amended. Once the service has answered and the text of the
    answer can be read, [process_item] does not raise. It returns a
    variant exactly when the reply parses to an object whose ["data"]
    is a non-empty object [d] and whose ["type"] is "word" or
    "sentence"; the variant then holds, for each field, [d]'s value
    under the field's key, or the empty string when [d] has no such
    key. In every other case it returns [None]. With the key set,
    [_process_new_favorites] builds the note of the variant, whatever
    fields the reply lacked, and no note from [None]. *)
Theorem process_item_fills_defaults item response reply :
  generate_content env (text item) (translation item) = Ok response ->
  response_text response = Ok reply ->
  exists r,
    gemini_client.process_item (generate_content env) (py_strip env) (json_loads env) item
    = Ok r /\
    (forall p,
       r = Some p <->
       exists kvs d,
         json_loads env (clean_markdown (py_strip env) (py_strip env reply))
         = Some (JObj kvs) /\
         obj_lookup "data" kvs = Some (JObj d) /\ d <> [] /\
         ((obj_lookup "type" kvs = Some (JStr "word") /\
           p = word_from (item_id item) d) \/
          (obj_lookup "type" kvs = Some (JStr "sentence") /\
           p = sentence_from (item_id item) d))) /\
    (config.GEMINI_API_KEY (cfg env) <> "" ->
     forall limit w,
       (_process_new_favorites env [item] limit false w).1
       = Ok (match r with
             | Some p => ([note_of env p], {[item_id item]})
             | None => ([], ∅)
             end)).
Proof.
  intros Hg Ht.
  pose proof (process_item_of_reply (generate_content env) (py_strip env)
                (json_loads env) item response reply Hg Ht) as Hp.
  eexists. split; [exact Hp|]. split.
  - intros p.
    destruct (json_loads env _) as [data|] eqn:El.
    2: { split; [done|]. by intros (? & ? & ? & _). }
    assert (Hiff : decode (item_id item) data = Ok (Some p) <->
                   exists kvs d,
                     Some data = Some (JObj kvs) /\
                     obj_lookup "data" kvs = Some (JObj d) /\ d <> [] /\
                     ((obj_lookup "type" kvs = Some (JStr "word") /\
                       p = word_from (item_id item) d) \/
                      (obj_lookup "type" kvs = Some (JStr "sentence") /\
                       p = sentence_from (item_id item) d))).
    { rewrite decode_Some. split.
      - intros (kvs & d & -> & H). by exists kvs, d.
      - intros (kvs & d & [= ->] & H). by exists kvs, d. }
    rewrite <- Hiff.
    destruct (decode (item_id item) data) as [r|e]; split; congruence.
  - intros Hkey limit w.
    destruct (process_new_favorites_outcome env [item] limit false w Hkey)
      as (k & Hk & _ & [(-> & Hf & _)|(it & e & Hit & He & _)]).
    + rewrite (Hf eq_refl). cbn [fst length take].
      rewrite enriched_cons, enriched_ids_cons. unfold enrich. rewrite Hp.
      unfold enriched, enriched_ids. cbn [omap list_omap]. rewrite filter_nil.
      cbn [fmap list_fmap list_to_set foldr].
      destruct (match json_loads env _ with Some _ => _ | None => _ end) as [p|].
      * cbn [app]. by rewrite union_empty_r_L.
      * done.
    + exfalso. destruct k as [|k]; [|by destruct k].
      injection Hit as <-. unfold enrichment in He. rewrite Hp in He. discriminate.
Qed.
End Credential.

Section Examples.
Import scenarios outages.

(** C1 fails on the code. Two new items; the enrichment of the first
    fails, the second gives a note, Anki accepts it. The note of
    "hello" is credited to "zzz": the ledger gets the id of "zzz",
    "zzz" is deleted from the Source, and "hello", whose note was
    written, stays in the Source with its id outside the ledger. *)
Example misaligned_credit_example :
  enrich env (item "zzz" "x") = None /\
  enrich env (item "hello" "konnichiwa") = Some (sentence_note "hello") /\
  run_once env 10 false false
    (world storage.Absent [RowOk "zzz" "x"; RowOk "hello" "konnichiwa"])
  = (Ok tt,
     mkWorld
       (mkSource true [RowOk "hello" "konnichiwa"])
       (disk_with (storage.Doc (JList [JStr "sha256:zzz-x"])))
       (mkAnki ["Default"] [sentence_note "hello"])
       [ EvLoadIds; EvFetch 10;
         EvProcess (item "zzz" "x"); EvProcess (item "hello" "konnichiwa");
         EvEnsureDeck "Default" "Basic"; EvEnsureDeck "Default" "Basic";
         EvAddNote (sentence_note "hello");
         EvSaveIds {[ "sha256:zzz-x" ]};
         EvDelete (item "zzz" "x") ]).
Proof. repeat split; vm_compute; reflexivity. Qed.


(** C3 fails on the code. A dry run on a Source that holds an item
    already in the ledger deletes that item from the Source. *)
Example dry_run_deletes_stale_example :
  run_once env 10 true false
    (world (storage.Doc (JList [JStr "sha256:a-x"])) [RowOk "a" "x"])
  = (Ok tt,
     mkWorld (mkSource true [])
             (disk_with (storage.Doc (JList [JStr "sha256:a-x"])))
             (mkAnki [] [])
             [EvLoadIds; EvFetch 10; EvDelete (item "a" "x"); EvFetch 10]).
Proof. vm_compute. reflexivity. Qed.

(** C4 as stated fails. With no API key the pass reads the ledger,
    fetches and deletes the stale item before it raises; and when no
    new item is left it does not raise at all. *)
Example missing_key_found_late_example :
  run_once (env_with_key "") 10 false false
    (world (storage.Doc (JList [JStr "sha256:a-x"])) [RowOk "a" "x"; RowOk "b" "y"])
  = (Raise (RuntimeError "GEMINI_API_KEY is not set in .env"),
     mkWorld (mkSource true [RowOk "b" "y"])
             (disk_with (storage.Doc (JList [JStr "sha256:a-x"])))
             (mkAnki [] [])
             [EvLoadIds; EvFetch 10; EvDelete (item "a" "x"); EvFetch 10]) /\
  run_once (env_with_key "") 10 false false
    (world (storage.Doc (JList [JStr "sha256:a-x"])) [RowOk "a" "x"])
  = (Ok tt,
     mkWorld (mkSource true [])
             (disk_with (storage.Doc (JList [JStr "sha256:a-x"])))
             (mkAnki [] [])
             [EvLoadIds; EvFetch 10; EvDelete (item "a" "x"); EvFetch 10]).
Proof. split; vm_compute; reflexivity. Qed.

End Examples.

Section Witnesses.
Import scenarios outages.

(** C9 at the pair ("a", "x"), found second on one page and first on
    another, with and without a limit, in two sessions. *)
Lemma item_id_deterministic_witness :
  item_id (item "a" "x") = id_of_pair digest "a" "x" /\
  item_id (item "a" "x") = item_id (item "a" "x").
Proof.
  apply (item_id_deterministic digest Up NoScreenshot None (Some 5)
           (mkSource true [RowOk "b" "y"; RowOk "a" "x"])
           (mkSource true [RowOk "a" "x"; RowError])
           [item "b" "y"; item "a" "x"] [item "a" "x"]
           (item "a" "x") (item "a" "x")).
  - vm_compute. reflexivity.
  - vm_compute. reflexivity.
  - apply list_elem_of_In. simpl. auto.
  - apply list_elem_of_In. simpl. auto.
  - reflexivity.
  - reflexivity.
Defined.

(** C4 as amended, on a Source with one stale and one new item. *)
Lemma missing_key_raises_after_cleanup_witness :
  exists cleanup,
    cleanup `prefix_of` cleanup_events (env_with_key "") 10
                          (known_ids (env_with_key "") stale_and_new) false
                          (source stale_and_new) /\
    (run_once (env_with_key "") 10 false false stale_and_new).2
    = mkWorld (cleaned (env_with_key "") 10 false stale_and_new)
              (disk stale_and_new) (anki stale_and_new)
              (trace stale_and_new ++ EvLoadIds :: cleanup) /\
    match (prologue (env_with_key "") 10 false stale_and_new).1 with
    | Raise e => (run_once (env_with_key "") 10 false false stale_and_new).1 = Raise e
    | Ok new_favorites =>
        cleanup = cleanup_events (env_with_key "") 10
                    (known_ids (env_with_key "") stale_and_new) false
                    (source stale_and_new) /\
        new_favorites
        = new_in (known_ids (env_with_key "") stale_and_new)
            (if false then []
             else fetched (env_with_key "") 10
                    (cleaned (env_with_key "") 10 false stale_and_new)) /\
        (run_once (env_with_key "") 10 false false stale_and_new).1
        = match new_favorites with
          | [] => Ok tt
          | _ => Raise (RuntimeError "GEMINI_API_KEY is not set in .env")
          end
    end.
Proof.
  apply (missing_key_raises_after_cleanup (env_with_key "") 10 false false stale_and_new).
  reflexivity.
Defined.

(** C5 as amended, on a "word" reply that carries one field only. *)
Lemma process_item_fills_defaults_witness :
  exists r,
    gemini_client.process_item (generate_content partial_word_env)
      (py_strip partial_word_env) (json_loads partial_word_env) (item "cat" "neko")
    = Ok r /\
    (forall p,
       r = Some p <->
       exists kvs d,
         json_loads partial_word_env
           (clean_markdown (py_strip partial_word_env) (py_strip partial_word_env "cat"))
         = Some (JObj kvs) /\
         obj_lookup "data" kvs = Some (JObj d) /\ d <> [] /\
         ((obj_lookup "type" kvs = Some (JStr "word") /\
           p = word_from (item_id (item "cat" "neko")) d) \/
          (obj_lookup "type" kvs = Some (JStr "sentence") /\
           p = sentence_from (item_id (item "cat" "neko")) d))) /\
    (config.GEMINI_API_KEY (cfg partial_word_env) <> "" ->
     forall limit w,
       (_process_new_favorites partial_word_env [item "cat" "neko"] limit false w).1
       = Ok (match r with
             | Some p => ([note_of partial_word_env p], {[item_id (item "cat" "neko")]})
             | None => ([], ∅)
             end)).
Proof.
  apply (process_item_fills_defaults partial_word_env (item "cat" "neko")
           (mkResponse (Ok "cat")) "cat"); reflexivity.
Defined.
End Witnesses.

(** ** The scenarios of the specification *)

Section SpecScenarios.
Import scenarios.

(** A: empty ledger, one new item, everything succeeds. *)
Example scenario_A :
  run_once env 10 false false (world storage.Absent [RowOk "hello" "konnichiwa"])
  = (Ok tt,
     mkWorld (mkSource true [])
             (disk_with (storage.Doc (JList [JStr "sha256:hello-konnichiwa"])))
             (mkAnki ["Default"] [sentence_note "hello"])
             [ EvLoadIds; EvFetch 10; EvProcess (item "hello" "konnichiwa");
               EvEnsureDeck "Default" "Basic"; EvEnsureDeck "Default" "Basic";
               EvAddNote (sentence_note "hello");
               EvSaveIds {[ "sha256:hello-konnichiwa" ]};
               EvDelete (item "hello" "konnichiwa") ]).
Proof. vm_compute. reflexivity. Qed.

(** B: the only item is stale: one delete, a second fetch, no enrichment. *)
Example scenario_B :
  run_once env 10 false false
    (world (storage.Doc (JList [JStr "sha256:x-y"])) [RowOk "x" "y"])
  = (Ok tt,
     mkWorld (mkSource true [])
             (disk_with (storage.Doc (JList [JStr "sha256:x-y"])))
             (mkAnki [] [])
             [EvLoadIds; EvFetch 10; EvDelete (item "x" "y"); EvFetch 10]).
Proof. vm_compute. reflexivity. Qed.

(** C: the enrichment gives nothing: no Sink call, nothing saved or deleted. *)
Example scenario_C :
  run_once env 10 false false (world storage.Absent [RowOk "zzz" "x"])
  = (Ok tt,
     mkWorld (mkSource true [RowOk "zzz" "x"]) (disk_with storage.Absent)
             (mkAnki [] [])
             [EvLoadIds; EvFetch 10; EvProcess (item "zzz" "x")]).
Proof. vm_compute. reflexivity. Qed.

(** D: [limit = 1] and two new items in the Source: the fetch returns
    the first only; the second stays for a later pass. *)
Example scenario_D :
  run_once env 1 false false (world storage.Absent [RowOk "a" "x"; RowOk "b" "y"])
  = (Ok tt,
     mkWorld (mkSource true [RowOk "b" "y"])
             (disk_with (storage.Doc (JList [JStr "sha256:a-x"])))
             (mkAnki ["Default"] [sentence_note "a"])
             [ EvLoadIds; EvFetch 1; EvProcess (item "a" "x");
               EvEnsureDeck "Default" "Basic"; EvEnsureDeck "Default" "Basic";
               EvAddNote (sentence_note "a");
               EvSaveIds {[ "sha256:a-x" ]};
               EvDelete (item "a" "x") ]).
Proof. vm_compute. reflexivity. Qed.
End SpecScenarios.

Import scraper_outline.

(** * Further properties of the code *)

Section StorageExtras.
Import storage.
Variable py_repr : json -> string.

Lemma sorted_ids_ext (ids1 ids2 : list string) :
  (forall x, x ∈ ids1 <-> x ∈ ids2) -> sorted_ids ids1 = sorted_ids ids2.
Proof.
  intros H. unfold sorted_ids.
  assert ((list_to_set ids1 : gset string) = list_to_set ids2) as ->; [|done].
  apply set_eq. intros x. by rewrite !elem_of_list_to_set.
Qed.


(** X1. The file [save_ids] writes depends only on the set of ids: two id
    lists with the same elements, in any order and with any repetitions,
    saved on any two disks whose directory is available and whose write
    succeeds, leave the same file content. *)
Theorem saved_file_is_canonical (ids1 ids2 : list string) (d1 d2 : Disk) :
  (forall x, x ∈ ids1 <-> x ∈ ids2) ->
  parent_exists d1 || parent_creatable d1 = true -> writable d1 = true ->
  parent_exists d2 || parent_creatable d2 = true -> writable d2 = true ->
  file (save_ids ids1 d1).2 = file (save_ids ids2 d2).2.
Proof.
  intros Hext Hp1 Hw1 Hp2 Hw2. unfold save_ids. rewrite Hp1, Hp2. simpl.
  rewrite Hw1, Hw2. simpl. by rewrite (sorted_ids_ext _ _ Hext).
Qed.


(** X3. The two ways a save fails. When the directory can be neither found
    nor created, [save_ids] raises (from [mkdir], before the [try]) and the
    disk is as before. When the directory is there and the write fails,
    [save_ids] returns normally; if the write failed after [open("w")] the
    file is left truncated and [load_ids] reads the empty set from it,
    otherwise the file and what [load_ids] reads are as before. *)
Theorem failed_save_outcomes (ids : list string) (d : Disk) :
  (parent_exists d || parent_creatable d = false ->
   save_ids ids d = (Raise IOError, d)) /\
  (parent_exists d || parent_creatable d = true -> writable d = false ->
   (save_ids ids d).1 = Ok tt /\
   file (save_ids ids d).2 = (if torn d then Truncated else file d) /\
   load_ids py_repr (save_ids ids d).2
   = (if torn d then Ok ∅ else load_ids py_repr d)).
Proof.
  split.
  - intros Hdir. unfold save_ids. by rewrite Hdir.
  - intros Hdir Hw. rewrite load_after_save, Hdir, Hw.
    unfold save_ids. rewrite Hdir. simpl. rewrite Hw.
    by destruct (torn d).
Qed.
End StorageExtras.

Section ScraperExtras.
Variable sha256_hex : string -> string.

Lemma extract_items_omap limit elements : forall i items,
  extract_items sha256_hex limit i elements items
  = items ++ omap (item_of_row sha256_hex)
               (match limit with
                | None => elements
                | Some l => if l =? 0 then elements
                            else take (Z.to_nat (l - Z.of_nat i)) elements
                end).
Proof.
  induction elements as [|el rest IH]; intros i items.
  - simpl. destruct limit as [l|]; [destruct (l =? 0)|]; rewrite ?take_nil; simpl;
      by rewrite app_nil_r.
  - cbn [extract_items]. unfold limit_reached.
    destruct limit as [l|].
    + destruct (l =? 0) eqn:E0; cbn [negb andb].
      * specialize (IH (S i)). rewrite ?E0 in IH.
        destruct el as [|t tr]; [by rewrite IH|]. cbn [omap list_omap item_of_row].
        destruct (nonempty t && nonempty tr); rewrite IH; [|done].
        by rewrite <- app_assoc.
      * destruct (Z.of_nat i >=? l) eqn:Eil.
        -- replace (Z.to_nat (l - Z.of_nat i)) with 0%nat by lia.
           simpl. by rewrite app_nil_r.
        -- replace (Z.to_nat (l - Z.of_nat i)) with (S (Z.to_nat (l - Z.of_nat (S i))))
             by lia.
           specialize (IH (S i)). rewrite ?E0 in IH. cbn [take].
           destruct el as [|t tr]; [by rewrite IH|]. cbn [omap list_omap item_of_row].
           destruct (nonempty t && nonempty tr); rewrite IH; [|done].
           by rewrite <- app_assoc.
    + specialize (IH (S i)).
      destruct el as [|t tr]; [by rewrite IH|]. cbn [omap list_omap item_of_row].
      destruct (nonempty t && nonempty tr); rewrite IH; [|done].
      by rewrite <- app_assoc.
Qed.

Lemma page_items_omap limit src :
  page_items sha256_hex limit src
  = if reachable src
    then omap (item_of_row sha256_hex) (rows_examined limit (rows src))
    else [].
Proof.
  unfold page_items, rows_examined. destruct (reachable src); [|done].
  destruct (rows src) as [|el rest] eqn:E.
  - destruct limit as [l|]; [destruct (l =? 0)|]; by rewrite ?take_nil.
  - rewrite extract_items_omap. cbn [app].
    destruct limit as [l|]; [|done]. destruct (l =? 0); [done|].
    by replace (l - Z.of_nat 0) with l by lia.
Qed.

(** X4. [fetch_favorites] is a filter over a prefix of the page. What its
    [try] gives: on a page that gets ready, one item, in page order, for
    each of the first [limit] favourite elements ([None] and [0]: all of
    them) that can be read and has a non-empty text and translation; the
    limit counts examined elements, skipped ones included, not returned
    items; a page that does not get ready gives [[]]. The caller gets this
    list when the browser session of the call goes well. *)
Theorem fetch_reads_the_first_rows session limit src :
  scraper.fetch_favorites sha256_hex session limit src
  = in_session session (negb (reachable src))
      (if reachable src
       then omap (item_of_row sha256_hex) (rows_examined limit (rows src))
       else []).
Proof. unfold scraper.fetch_favorites. by rewrite page_items_omap. Qed.

(** X5. Every item of a list [fetch_favorites] returns was read from an
    element of a page that got ready, has a non-empty text and a non-empty
    translation, and carries the digest of its own text and translation as
    id. *)
Theorem fetched_items_come_from_rows session limit src items it :
  scraper.fetch_favorites sha256_hex session limit src = Ok items ->
  it ∈ items ->
  reachable src = true /\
  RowOk (text it) (translation it) ∈ rows src /\
  text it <> "" /\ translation it <> "" /\
  item_id it = id_of_pair sha256_hex (text it) (translation it).
Proof.
  intros ->%fetch_favorites_Ok.
  rewrite page_items_omap. destruct (reachable src); [|by intros ?%elem_of_nil].
  intros (el & Hel & Hit)%list_elem_of_omap.
  assert (Hin : el ∈ rows src).
  { unfold rows_examined in Hel. destruct limit as [l|]; [|done].
    destruct (l =? 0); [done|]. by eapply subseteq_take. }
  destruct el as [|t tr]; [discriminate|]. cbn [item_of_row] in Hit.
  destruct (nonempty t) eqn:Et; [|discriminate].
  destruct (nonempty tr) eqn:Etr; [|discriminate].
  injection Hit as <-. cbn [text translation item_id make_item].
  unfold nonempty in *. repeat split; try done.
  - intros ->. discriminate.
  - intros ->. discriminate.
Qed.
End ScraperExtras.

Section GeminiExtras.
Variable py_strip : string -> string.

Lemma rev_app_append (a b c : string) :
  String.rev_app (a +:+ b) c = String.rev_app b (String.rev_app a c).
Proof. revert c. induction a as [|x a IH]; intros c; simpl; [done|]. apply IH. Qed.

Lemma length_append (a b : string) :
  String.length (a +:+ b) = (String.length a + String.length b)%nat.
Proof. induction a as [|x a IH]; simpl; [done|]. by rewrite IH. Qed.

Lemma substring_append (a b : string) :
  String.substring 0 (String.length a) (a +:+ b) = a.
Proof. induction a as [|x a IH]; simpl; [by destruct b|]. by rewrite IH. Qed.

Lemma ends_with_fence (s : string) : ends_with "```" (s +:+ "```") = true.
Proof.
  unfold ends_with, String.rev. rewrite rev_app_append.
  cbn [String.rev_app]. by destruct (String.rev_app s "").
Qed.

(** X7. The Markdown clean-up of [process_item]: a reply of the form
    "```json" + body + "```" is reduced to the stripped body, for every body
    (also the empty one), and a reply that does not start with "```json" is
    left as it is. *)
Theorem clean_markdown_unwraps_fence (body : string) :
  clean_markdown py_strip ("```json" +:+ body +:+ "```") = py_strip body /\
  (forall s, String.prefix "```json" s = false -> clean_markdown py_strip s = s).
Proof.
  split.
  - unfold clean_markdown.
    replace (ends_with "```" ("```json" +:+ body +:+ "```")) with true
      by (symmetry; apply (ends_with_fence ("```json" +:+ body))).
    replace (String.prefix "```json" ("```json" +:+ body +:+ "```")) with true
      by (simpl; by destruct (body +:+ "```")).
    cbn [andb]. rewrite !length_append.
    lazymatch goal with
    | |- context [String.substring 7 ?n _] =>
        replace n with (String.length body) by (simpl; lia)
    end.
    f_equal. cbn [String.append String.substring]. apply substring_append.
  - intros s Hs. unfold clean_markdown. by rewrite Hs.
Qed.
End GeminiExtras.

Section AnkiExtras.

(** X10. The note formats lose nothing: two word records with the same word
    note are equal, two sentence records with the same sentence note are
    equal, and a word note is never a sentence note, whatever the configured
    deck and note type names. *)
Theorem notes_determine_their_data (cfg : config.Config) :
  (forall w1 w2, format_word_note cfg w1 = format_word_note cfg w2 -> w1 = w2) /\
  (forall s1 s2, format_sentence_note cfg s1 = format_sentence_note cfg s2 -> s1 = s2) /\
  (forall w s, format_word_note cfg w <> format_sentence_note cfg s).
Proof.
  repeat split.
  - intros [a1 b1 c1 d1] [a2 b2 c2 d2]. unfold format_word_note. simpl. congruence.
  - intros [a1 b1] [a2 b2]. unfold format_sentence_note. simpl. congruence.
  - intros w s. unfold format_word_note, format_sentence_note. congruence.
Qed.
End AnkiExtras.

Section PassFunctions.
Variable env : Env.

(** X11. [_load_and_filter_favorites] touches neither the ledger file nor
    Anki, whether it returns or raises. Its Source calls are the start of:
    fetch, a delete per stale item, fetch again. When it returns, it has
    made all of them, and the items it returns are those of its last fetch
    whose id is not in the given ledger. It raises only out of a Source call
    whose browser session did not go well. When it skips the browser or the
    first fetch shows no processed item, the Source is left as it was and no
    delete is called; with [skip_browser] it returns [[]] without any Source
    call. *)
Theorem load_and_filter_returns_unprocessed limit known skip w :
  exists r s evs,
    _load_and_filter_favorites env limit known skip w
    = (r, mkWorld s (disk w) (anki w) (trace w ++ evs)) /\
    evs `prefix_of` cleanup_events env limit known skip (source w) /\
    (forall items, r = Ok items ->
       evs = cleanup_events env limit known skip (source w) /\
       items = new_in known (if skip then [] else fetched env limit s) /\
       forall it, it ∈ items -> item_id it ∉ known) /\
    (forall e, r = Raise e ->
       skip = false /\ e = PlaywrightError /\ exists calls, session env calls <> Up) /\
    (skip = true \/ stale_in known (fetched env limit (source w)) = [] ->
     s = source w /\ forall it, EvDelete it ∉ evs) /\
    (skip = true -> r = Ok [] /\ evs = []).
Proof.
  destruct (load_and_filter_shape env limit known skip w)
    as (r & s & evs & E & Hpre & Hok & Hraise & Hs).
  exists r, s, evs. split; [done|]. split; [done|]. split; [|split; [done|split]].
  - intros items Hr. destruct (Hok items Hr) as [-> ->].
    split; [done|]. split; [done|]. by intros it [? _]%new_in_elem.
  - intros Hst. split; [by apply Hs|].
    intros it Hit. eapply elem_of_prefix in Hit; [|exact Hpre].
    unfold cleanup_events in Hit. destruct skip; [by apply elem_of_nil in Hit|].
    destruct Hst as [?|Hst]; [done|]. rewrite Hst in Hit.
    apply list_elem_of_singleton in Hit. discriminate.
  - intros ->. unfold cleanup_events in Hpre. apply prefix_nil_inv in Hpre. subst evs.
    split; [|done]. destruct r as [items|e].
    + by destruct (Hok items eq_refl) as [_ ->].
    + by destruct (Hraise e eq_refl) as [? _].
Qed.

(** X12. With an API key, without dry run, and when every enrichment call
    returns, [_process_new_favorites] asks the service for every given item,
    in order and whatever the limit, and returns the notes of the items the
    service enriched, in order, with the ids of exactly those items; it
    changes neither Source, ledger nor Anki. *)
Theorem process_new_favorites_returns_enriched new_favorites limit w :
  config.GEMINI_API_KEY (cfg env) <> "" ->
  (forall it, it ∈ new_favorites -> returns (enrichment env it) = true) ->
  _process_new_favorites env new_favorites limit false w
  = (Ok (enriched env new_favorites, enriched_ids env new_favorites),
     mkWorld (source w) (disk w) (anki w) (trace w ++ (EvProcess <$> new_favorites))).
Proof.
  intros Hkey Hall.
  destruct (process_new_favorites_outcome env new_favorites limit false w Hkey)
    as (k & Hk & _ & [(-> & Hf & _)|(it & e & Hit & He & _)]).
  - by rewrite (Hf eq_refl), firstn_all.
  - apply list_elem_of_lookup_2 in Hit. specialize (Hall _ Hit).
    rewrite He in Hall. discriminate.
Qed.

(** X13. [_add_notes_to_anki] with at most as many notes as favourites and
    both decks available: every note is sent once, in order; the items
    returned are the favourites at the positions of the accepted notes; the
    ids saved are theirs together with the ids passed in; and the call
    raises only if the save does. *)
Theorem add_notes_credits_by_position notes_to_add new_favorites ids w j1 j2 :
  (length notes_to_add <= length new_favorites)%nat ->
  deck_reply env (word_deck env) = Ok j1 ->
  deck_reply env (sentence_deck env) = Ok j2 ->
  let saved := list_to_set (item_id <$> credited env new_favorites notes_to_add) ∪ ids in
  _add_notes_to_anki env notes_to_add new_favorites ids w
  = (match (storage.save_ids (elements saved) (disk w)).1 with
     | Ok _ => Ok (credited env new_favorites notes_to_add)
     | Raise e => Raise e
     end,
     mkWorld (source w)
             (storage.save_ids (elements saved) (disk w)).2
             (with_notes env notes_to_add
                (with_deck (sentence_deck env) (with_deck (word_deck env) (anki w))))
             (trace w ++ [ensure_word env; ensure_sentence env] ++
              (EvAddNote <$> notes_to_add) ++ [EvSaveIds saved])).
Proof.
  intros Hlen H1 H2 saved. rewrite add_notes_exact by done. by rewrite H1, H2.
Qed.

(** X14. [_add_notes_to_anki] with more notes than favourites: after one
    [add_note] per favourite the lookup [new_favorites[i]] raises
    [IndexError]; the notes accepted so far stay in Anki, and the ledger is
    not saved. *)
Theorem add_notes_overflow_skips_the_save notes_to_add new_favorites ids w j1 j2 :
  (length new_favorites < length notes_to_add)%nat ->
  deck_reply env (word_deck env) = Ok j1 ->
  deck_reply env (sentence_deck env) = Ok j2 ->
  _add_notes_to_anki env notes_to_add new_favorites ids w
  = (Raise IndexError,
     mkWorld (source w) (disk w)
             (with_notes env (take (length new_favorites) notes_to_add)
                (with_deck (sentence_deck env) (with_deck (word_deck env) (anki w))))
             (trace w ++ [ensure_word env; ensure_sentence env] ++
              (EvAddNote <$> take (length new_favorites) notes_to_add))).
Proof.
  intros Hlen H1 H2. unfold _add_notes_to_anki.
  rewrite mbind_unfold, ensure_deck_exact. fold (word_deck env). rewrite H1.
  rewrite mbind_unfold, ensure_deck_exact. fold (sentence_deck env). rewrite H2.
  rewrite mbind_unfold, add_each_overflow by (simpl; lia).
  rewrite Nat.sub_0_r. cbn [source disk anki trace].
  unfold ensure_word, ensure_sentence. by rewrite <- !app_assoc.
Qed.

End PassFunctions.

Section PassFacts.
Variable env : Env.

Lemma enriched_none items :
  (forall it, it ∈ items -> enrich env it = None) -> enriched env items = [].
Proof.
  induction items as [|it rest IH]; intros H; [done|].
  rewrite enriched_cons, (H it) by (by left). apply IH. intros; apply H. by right.
Qed.

Lemma prologue_raises limit skip w e :
  (prologue env limit skip w).1 = Raise e ->
  (e = IOError /\ storage.file (disk w) = storage.NoStat) \/
  (skip = false /\ e = PlaywrightError /\ exists calls, session env calls <> Up).
Proof.
  destruct (prologue_shape env limit skip w) as (r & s & evs & E & _ & _ & Hraise & _).
  rewrite E. cbn [fst]. intros ->.
  destruct (Hraise e eq_refl) as [(? & ? & _)|?]; auto.
Qed.

(** X16. With [skip_browser] a pass is the ledger load alone: no Source,
    enrichment or Anki call, nothing saved, whatever the limit and the
    dry-run flag. It returns normally when [load_ids] returns and raises
    what [load_ids] raises. *)
Theorem skip_browser_only_loads limit dry w :
  run_once env limit dry true w
  = (match storage.load_ids (py_repr env) (disk w) with
     | Ok _ => Ok tt
     | Raise e => Raise e
     end,
     log EvLoadIds w).
Proof.
  unfold run_once. rewrite mbind_unfold, load_ids_effect.
  destruct (storage.load_ids (py_repr env) (disk w)) as [ids|e]; [|done].
  rewrite mbind_unfold. unfold _load_and_filter_favorites. cbn [negb].
  rewrite mbind_unfold. unfold mret, M_ret, ret. by rewrite filter_nil.
Qed.

(** X17. When the ledger load returns and the fetch returns nothing (no
    favourite, none readable, or the page does not get ready) the pass is
    the ledger load and that one fetch, and it returns normally: the API key
    is not even checked. *)
Theorem empty_fetch_ends_the_pass limit dry w :
  returns (load_ids env w).1 = true ->
  (fetch_favorites env limit (log EvLoadIds w)).1 = Ok [] ->
  run_once env limit dry false w = (Ok tt, log (EvFetch limit) (log EvLoadIds w)).
Proof.
  intros Hload Hfetch. unfold run_once. rewrite mbind_unfold.
  rewrite load_ids_effect in *. cbn [fst] in Hload.
  destruct (storage.load_ids (py_repr env) (disk w)) as [ids|e]; [|discriminate].
  rewrite mbind_unfold. unfold _load_and_filter_favorites. cbn [negb].
  rewrite !mbind_unfold.
  destruct (fetch_favorites_effect env limit (log EvLoadIds w)) as (r & E & _).
  rewrite E in *. cbn [fst] in Hfetch. subst r.
  rewrite filter_nil. unfold mret, M_ret, ret. by rewrite filter_nil.
Qed.

(** X19. A pass returns normally when nothing it calls raises: the ledger
    path can be examined, every browser session goes well, the API key is
    set, the enrichment call returns for every candidate, AnkiConnect
    answers every [createDeck] without error, and the ledger directory
    exists or can be created. Deletes that return [False], enrichments that
    give nothing, notes that are refused and a ledger write that fails do
    not make it raise. *)
Theorem healthy_pass_returns limit dry skip w :
  storage.file (disk w) <> storage.NoStat ->
  (forall calls, session env calls = Up) ->
  config.GEMINI_API_KEY (cfg env) <> "" ->
  (forall it, it ∈ candidates env limit skip w -> returns (enrichment env it) = true) ->
  (forall deck, returns (deck_reply env deck) = true) ->
  storage.parent_exists (disk w) || storage.parent_creatable (disk w) = true ->
  (run_once env limit dry skip w).1 = Ok tt.
Proof.
  intros Hstat Hup Hkey Hret Hdeck Hdir.
  pose proof (run_once_outcome env limit dry skip w) as Hout.
  inversion Hout as [e He Hr Hw
                    |He Hr Hw
                    |Hc Hkey' Hr Hw
                    |k item e Hkey' Hit Hret' He Hlim Hr Hw
                    |k Hc Hkey' Hret' Hf Ht Hstop Hr Hw
                    |e Hd Hsk Hkey' Hret' Hen Hdeck' Hr Hw
                    |e j Hd Hsk Hkey' Hret' Hen Hd1 Hd2 Hr Hw
                    |e d j1 j2 Hd Hsk Hkey' Hret' Hen Hd1 Hd2 Hsave Hr Hw
                    |d j1 j2 Hd Hsk Hkey' Hret' Hen Hd1 Hd2 Hsave Hr Hw].
  - exfalso. apply prologue_raises in He as [[_ ?]|(_ & _ & calls & Hc)]; [done|].
    by rewrite Hup in Hc.
  - done.
  - done.
  - exfalso. apply list_elem_of_lookup_2 in Hit. specialize (Hret _ Hit).
    rewrite He in Hret. discriminate.
  - done.
  - exfalso. specialize (Hdeck (word_deck env)). rewrite Hdeck' in Hdeck. discriminate.
  - exfalso. specialize (Hdeck (sentence_deck env)). rewrite Hd2 in Hdeck. discriminate.
  - exfalso. apply save_raises_keeps_disk in Hsave as (_ & _ & Hn).
    rewrite Hdir in Hn. discriminate.
  - destruct (delete_processed_shape env
                (credited env (candidates env limit skip w)
                   (enriched env (candidates env limit skip w)))
                (saved env limit skip w d)) as (rd & k & s & E & _ & _ & Hraise & _).
    rewrite E. cbn [fst]. destruct rd as [[]|e]; [done|].
    destruct (Hraise e eq_refl) as (_ & calls & Hc). by rewrite Hup in Hc.
Qed.

(** X20. When every enrichment call returned, some candidate was enriched
    and AnkiConnect does not answer the first [createDeck], the pass raises
    [RequestException] right after that call: every candidate has been sent
    to the service, but no note is added, the ledger is not saved and no new
    item is deleted. *)
Theorem unreachable_anki_aborts_before_writing limit w :
  config.GEMINI_API_KEY (cfg env) <> "" ->
  (forall it, it ∈ candidates env limit false w -> returns (enrichment env it) = true) ->
  enriched env (candidates env limit false w) <> [] ->
  createDeck env (word_deck env) = NoReply ->
  run_once env limit false false w
  = (Raise RequestException,
     mkWorld (cleaned env limit false w) (disk w) (anki w)
             (prelude env limit false w ++
              (EvProcess <$> candidates env limit false w) ++ [ensure_word env])).
Proof.
  intros Hkey Hret Hen Hno.
  assert (Hd : deck_reply env (word_deck env) = Raise RequestException).
  { unfold deck_reply. by rewrite Hno. }
  assert (Hc : candidates env limit false w <> []).
  { intros Hc. by rewrite Hc in Hen. }
  rewrite run_once_pair.
  pose proof (run_once_outcome env limit false false w) as Hout.
  inversion Hout as [e He Hr Hw
                    |He Hr Hw
                    |Hc' Hkey' Hr Hw
                    |k item e Hkey' Hit Hret' He Hlim Hr Hw
                    |k Hc' Hkey' Hret' Hf Ht Hstop Hr Hw
                    |e Hd' Hsk Hkey' Hret' Hen' Hdeck' Hr Hw
                    |e j Hd' Hsk Hkey' Hret' Hen' Hd1 Hd2 Hr Hw
                    |e d j1 j2 Hd' Hsk Hkey' Hret' Hen' Hd1 Hd2 Hsave Hr Hw
                    |d j1 j2 Hd' Hsk Hkey' Hret' Hen' Hd1 Hd2 Hsave Hr Hw].
  - exfalso. apply Hc. unfold candidates. by rewrite He.
  - exfalso. apply Hc. unfold candidates. by rewrite He.
  - done.
  - exfalso. apply list_elem_of_lookup_2 in Hit. specialize (Hret _ Hit).
    rewrite He in Hret. discriminate.
  - exfalso. destruct Hstop as [?|Hstop]; [done|].
    rewrite (Hf eq_refl), firstn_all in Hstop. done.
  - rewrite Hd in Hdeck'. by injection Hdeck' as <-.
  - rewrite Hd in Hd1. discriminate.
  - rewrite Hd in Hd1. discriminate.
  - rewrite Hd in Hd1. discriminate.
Qed.

(** X21. When the ledger load and the cleanup return, the API key is set and
    the enrichment call returns [None] for every candidate, a pass ends
    after the enrichment calls and returns normally: no Anki call, nothing
    saved, no candidate deleted. *)
Theorem failed_enrichments_leave_everything limit skip w :
  returns (prologue env limit skip w).1 = true ->
  config.GEMINI_API_KEY (cfg env) <> "" ->
  (forall it, it ∈ candidates env limit skip w -> enrichment env it = Ok None) ->
  run_once env limit false skip w
  = (Ok tt,
     mkWorld (cleaned env limit skip w) (disk w) (anki w)
             (prelude env limit skip w ++ (EvProcess <$> candidates env limit skip w))).
Proof.
  intros Hpro Hkey Hnone.
  assert (Hen : enriched env (candidates env limit skip w) = []).
  { apply enriched_none. intros it Hit. unfold enrich.
    specialize (Hnone it Hit). unfold enrichment in Hnone. by rewrite Hnone. }
  destruct (prologue_outline env limit skip w) as (evs & final & Ew0 & Epre & _).
  assert (Hw0 : (prologue env limit skip w).2
                = mkWorld (cleaned env limit skip w) (disk w) (anki w)
                          (prelude env limit skip w)) by (by rewrite Epre).
  rewrite run_once_pair.
  pose proof (run_once_outcome env limit false skip w) as Hout.
  inversion Hout as [e He Hr Hw
                    |He Hr Hw
                    |Hc' Hkey' Hr Hw
                    |k item e Hkey' Hit Hret' He Hlim Hr Hw
                    |k Hc' Hkey' Hret' Hf Ht Hstop Hr Hw
                    |e Hd' Hsk Hkey' Hret' Hen' Hdeck' Hr Hw
                    |e j Hd' Hsk Hkey' Hret' Hen' Hd1 Hd2 Hr Hw
                    |e d j1 j2 Hd' Hsk Hkey' Hret' Hen' Hd1 Hd2 Hsave Hr Hw
                    |d j1 j2 Hd' Hsk Hkey' Hret' Hen' Hd1 Hd2 Hsave Hr Hw];
    try done.
  - rewrite He in Hpro. discriminate.
  - rewrite Hw0. f_equal. unfold candidates. rewrite He. cbn [fmap list_fmap].
    by rewrite app_nil_r.
  - exfalso. apply list_elem_of_lookup_2 in Hit. specialize (Hnone _ Hit).
    rewrite He in Hnone. discriminate.
  - rewrite (Hf eq_refl), firstn_all, Hw0. reflexivity.
Qed.

(** X27. When the service call itself raises [json.JSONDecodeError] on the
    first candidate, the handler of [process_item] reads the unbound
    [response]: the pass raises [UnboundLocalError] right after that
    enrichment call (in a dry run too, when the limit is positive), with
    nothing written, saved or deleted for a candidate. *)
Theorem unbound_response_aborts_the_pass limit dry skip w item rest :
  config.GEMINI_API_KEY (cfg env) <> "" ->
  (prologue env limit skip w).1 = Ok (item :: rest) ->
  (dry = true -> 0 < limit) ->
  generate_content env (text item) (translation item) = Raise JSONDecodeError ->
  run_once env limit dry skip w
  = (Raise UnboundLocalError, log (EvProcess item) (prologue env limit skip w).2).
Proof.
  intros Hkey Hpro Hlim Hgen. rewrite run_once_prologue.
  destruct (prologue env limit skip w) as [r0 w0]. cbn [fst snd] in *. subst r0.
  rewrite mbind_unfold. unfold _process_new_favorites. rewrite mbind_unfold.
  unfold GeminiProcessor, gemini_client.GeminiProcessor, nonempty.
  destruct (String.eqb_spec (config.GEMINI_API_KEY (cfg env)) ""); [done|].
  cbn [negb process_each].
  assert (dry && (Z.of_nat 0 >=? limit) = false) as ->.
  { destruct dry; [|done]. specialize (Hlim eq_refl). cbn [andb].
    rewrite Z.geb_leb. apply Z.leb_gt. lia. }
  rewrite mbind_unfold, process_item_effect.
  assert (enrichment env item = Raise UnboundLocalError) as ->; [|done].
  apply process_item_raises. by left.
Qed.

(** X22. A dry run that skips the browser, or whose fetch shows no processed
    item, leaves the Source, the ledger file and Anki exactly as they were. *)
Theorem dry_run_without_stale_items_is_pure limit skip w :
  skip = true \/ stale_in (known_ids env w) (fetched env limit (source w)) = [] ->
  source (run_once env limit true skip w).2 = source w /\
  disk (run_once env limit true skip w).2 = disk w /\
  anki (run_once env limit true skip w).2 = anki w.
Proof.
  intros Hst.
  destruct (prologue_outline env limit skip w)
    as (evs & final & _ & Epre & _ & Ecand & _ & _ & _ & Hclean).
  destruct (run_once_shape env limit true skip w evs final Epre Ecand)
    as (r & s & d & a & k & commit & -> & Hdry & _).
  destruct (Hdry eq_refl) as (_ & _ & -> & -> & ->). cbn [snd source disk anki].
  split; [by apply Hclean|done].
Qed.

Lemma notes_with_deck deck a : notes (with_deck deck a) = notes a.
Proof. unfold with_deck. by case_bool_decide. Qed.

Lemma notes_written limit skip w :
  notes (written env limit skip w)
  = notes (anki w) ++
    filter (fun note => accepted env note = true)
           (enriched env (candidates env limit skip w)).
Proof. unfold written, with_notes. cbn [notes]. by rewrite !notes_with_deck. Qed.

(** What a pass leaves of Anki and of the ledger file. *)
Lemma run_once_sink_and_ledger limit dry skip w :
  (anki (run_once env limit dry skip w).2 = anki w \/
   anki (run_once env limit dry skip w).2 = with_deck (word_deck env) (anki w) \/
   anki (run_once env limit dry skip w).2 = written env limit skip w) /\
  (disk (run_once env limit dry skip w).2 = disk w \/
   dry = false /\
   disk (run_once env limit dry skip w).2
   = (storage.save_ids (elements (saved_ids env limit skip w)) (disk w)).2) /\
  (source (run_once env limit dry skip w).2 = cleaned env limit skip w \/
   dry = false /\
   credited env (candidates env limit skip w) (enriched env (candidates env limit skip w))
   <> []).
Proof.
  destruct (prologue_outline env limit skip w) as (evs & final & Ew0 & _).
  pose proof (run_once_outcome env limit dry skip w) as Hout.
  inversion Hout as [e He Hr Hw
                    |He Hr Hw
                    |Hc' Hkey' Hr Hw
                    |k item e Hkey' Hit Hret' He Hlim Hr Hw
                    |k Hc' Hkey' Hret' Hf Ht Hstop Hr Hw
                    |e Hd' Hsk Hkey' Hret' Hen' Hdeck' Hr Hw
                    |e j Hd' Hsk Hkey' Hret' Hen' Hd1 Hd2 Hr Hw
                    |e d j1 j2 Hd' Hsk Hkey' Hret' Hen' Hd1 Hd2 Hsave Hr Hw
                    |d j1 j2 Hd' Hsk Hkey' Hret' Hen' Hd1 Hd2 Hsave Hr Hw];
    rewrite ?Ew0; cbn [after source disk anki]; rewrite ?Ew0; cbn [source disk anki];
    try (split; [auto|split; auto]; fail).
  - split; [auto|]. split; [|by left].
    apply save_raises_keeps_disk in Hsave as (-> & _). by left.
  - destruct (delete_processed_shape env
                (credited env (candidates env limit skip w)
                   (enriched env (candidates env limit skip w)))
                (saved env limit skip w d)) as (rd & k & s & E & _ & _ & _ & Hnil).
    rewrite E. cbn [snd source disk anki saved].
    split; [auto|]. split.
    + right. split; [done|]. by rewrite Hsave.
    + destruct (credited env _ _) as [|c cs] eqn:Ec; [left; by apply Hnil|].
      right. split; [done|]. done.
Qed.

(** X23. A pass never removes or changes a note of the collection; what it
    appends is either nothing or, in order, the notes of the enriched
    candidates that Anki accepted, and each of them was built from a
    candidate of this pass. *)
Theorem anki_gains_only_accepted_notes limit dry skip w :
  exists added,
    notes (anki (run_once env limit dry skip w).2) = notes (anki w) ++ added /\
    (added = [] \/
     added = filter (fun note => accepted env note = true)
                    (enriched env (candidates env limit skip w))) /\
    forall note, note ∈ added ->
      accepted env note = true /\
      exists it, it ∈ candidates env limit skip w /\ enrich env it = Some note.
Proof.
  assert (Hfilter : forall note,
            note ∈ filter (fun note => accepted env note = true)
                          (enriched env (candidates env limit skip w)) ->
            accepted env note = true /\
            exists it, it ∈ candidates env limit skip w /\ enrich env it = Some note).
  { intros note [Hacc Hn]%list_elem_of_filter. split; [done|].
    unfold enriched in Hn. by apply list_elem_of_omap in Hn. }
  destruct (run_once_sink_and_ledger limit dry skip w) as ([-> |[-> | ->]] & _).
  - exists []. rewrite app_nil_r. split; [done|]. split; [by left|].
    by intros ? ?%elem_of_nil.
  - exists []. rewrite notes_with_deck, app_nil_r. split; [done|]. split; [by left|].
    by intros ? ?%elem_of_nil.
  - eexists. split; [apply notes_written|]. split; [by right|done].
Qed.

Lemma credited_none new_favorites notes_to_add :
  (forall note, accepted env note = false) ->
  credited env new_favorites notes_to_add = [].
Proof.
  intros Hrej. unfold credited.
  assert (filter (fun p : FavoriteItem * AnkiNote => accepted env p.2 = true)
                 (zip new_favorites notes_to_add) = []) as ->; [|done].
  induction (zip new_favorites notes_to_add) as [|[it n] l IH]; [done|].
  rewrite filter_cons. cbn [snd]. rewrite Hrej. by case_decide.
Qed.

Lemma filter_accepted_none notes_to_add :
  (forall note, accepted env note = false) ->
  filter (fun note => accepted env note = true) notes_to_add = [].
Proof.
  intros Hrej. induction notes_to_add as [|n l IH]; [done|].
  rewrite filter_cons, Hrej. by case_decide.
Qed.

(** What the ledger reads as after a save of the ids [ids]. *)
Lemma known_after_save ids w w' :
  disk w' = (storage.save_ids (elements ids) (disk w)).2 ->
  known_ids env w' = ids \/ known_ids env w' = known_ids env w \/
  (storage.writable (disk w) = false /\ storage.torn (disk w) = true /\
   known_ids env w' = ∅).
Proof.
  intros Hd. unfold known_ids. rewrite Hd, load_after_save.
  destruct (_ || _); [|auto].
  destruct (storage.writable (disk w)); [left; by rewrite list_to_set_elements_L|].
  destruct (storage.torn (disk w)); auto.
Qed.

(** X24. When Anki accepts no note, a pass deletes no candidate (the Source
    is as the cleanup left it) and the collection has the notes it had. The
    ids read from the ledger afterwards are those read before, unless the
    pass reached its save and the write failed after truncating the file:
    then the ledger reads as empty. *)
Theorem rejected_notes_commit_nothing limit dry skip w :
  (forall note, accepted env note = false) ->
  source (run_once env limit dry skip w).2 = cleaned env limit skip w /\
  notes (anki (run_once env limit dry skip w).2) = notes (anki w) /\
  (known_ids env (run_once env limit dry skip w).2 = known_ids env w \/
   (storage.writable (disk w) = false /\ storage.torn (disk w) = true /\
    known_ids env (run_once env limit dry skip w).2 = ∅)).
Proof.
  intros Hrej.
  assert (Hsaved : saved_ids env limit skip w = known_ids env w).
  { unfold saved_ids. rewrite credited_none by done. cbn. by rewrite union_empty_l_L. }
  destruct (run_once_sink_and_ledger limit dry skip w) as (Ha & Hd & Hs).
  split; [|split].
  - destruct Hs as [?|[_ Hs]]; [done|]. by rewrite credited_none in Hs.
  - destruct Ha as [-> |[-> | ->]]; rewrite ?notes_with_deck, ?notes_written,
      ?filter_accepted_none, ?app_nil_r by done; done.
  - destruct Hd as [Hd|[_ Hd]]; [left; by apply known_ids_disk|].
    destruct (known_after_save (saved_ids env limit skip w) w _ Hd) as [Hk|[Hk|Hk]].
    + left. by rewrite Hk.
    + by left.
    + by right.
Qed.

(** X25. Every id the ledger holds after a pass was there before or is the
    id of a candidate of this pass. Every id it held before is still there,
    unless the pass (not a dry run) reached its save and the write failed
    after truncating the file: then the ledger reads as empty. *)
Theorem ledger_gains_only_candidates limit dry skip w :
  (forall i, i ∈ known_ids env (run_once env limit dry skip w).2 ->
     i ∈ known_ids env w \/
     exists it, it ∈ candidates env limit skip w /\ item_id it = i) /\
  (known_ids env w ⊆ known_ids env (run_once env limit dry skip w).2 \/
   (dry = false /\ storage.writable (disk w) = false /\ storage.torn (disk w) = true /\
    known_ids env (run_once env limit dry skip w).2 = ∅)).
Proof.
  assert (Hsaved : forall i, i ∈ saved_ids env limit skip w ->
            i ∈ known_ids env w \/
            exists it, it ∈ candidates env limit skip w /\ item_id it = i).
  { intros i. unfold saved_ids. rewrite elem_of_union, elem_of_list_to_set.
    intros [Hi|Hi]; [|by left]. right.
    apply list_elem_of_fmap in Hi as (it & -> & Hit).
    exists it. split; [by apply credited_elem in Hit as [? _] | done]. }
  destruct (run_once_sink_and_ledger limit dry skip w) as (_ & Hd & _).
  destruct Hd as [Hd|[Hdry Hd]].
  - rewrite (known_ids_disk env _ _ Hd). split; [auto|by left].
  - destruct (known_after_save (saved_ids env limit skip w) w _ Hd)
      as [Hk|[Hk|(Hw & Ht & Hk)]]; rewrite Hk.
    + split; [done|]. left. unfold saved_ids. apply union_subseteq_r.
    + split; [auto|by left].
    + split; [by intros i ?%elem_of_empty|]. by right.
Qed.
End PassFacts.

(** ** Instances of the properties that have a precondition *)

Section ExtraWitnesses.
Import scenarios outages.

Lemma saved_file_is_canonical_witness :
  storage.file (storage.save_ids ["b"; "a"; "b"]
                  (storage.mkDisk false true true false storage.Absent)).2
  = storage.file (storage.save_ids ["a"; "b"]
                    (storage.mkDisk true false true true storage.NotJson)).2.
Proof.
  apply (saved_file_is_canonical ["b"; "a"; "b"] ["a"; "b"]
           (storage.mkDisk false true true false storage.Absent)
           (storage.mkDisk true false true true storage.NotJson)).
  - intros x. rewrite !elem_of_cons, !elem_of_nil. tauto.
  - reflexivity.
  - reflexivity.
  - reflexivity.
  - reflexivity.
Defined.


Lemma fetched_items_come_from_rows_witness :
  reachable (mkSource true [RowError; RowOk "a" "x"; RowOk "" "y"]) = true /\
  RowOk (text (item "a" "x")) (translation (item "a" "x"))
    ∈ rows (mkSource true [RowError; RowOk "a" "x"; RowOk "" "y"]) /\
  text (item "a" "x") <> "" /\ translation (item "a" "x") <> "" /\
  item_id (item "a" "x")
  = id_of_pair digest (text (item "a" "x")) (translation (item "a" "x")).
Proof.
  apply (fetched_items_come_from_rows digest Up (Some 5)
           (mkSource true [RowError; RowOk "a" "x"; RowOk "" "y"])
           [item "a" "x"] (item "a" "x")).
  - vm_compute. reflexivity.
  - apply list_elem_of_singleton. reflexivity.
Defined.

Lemma process_new_favorites_returns_enriched_witness :
  _process_new_favorites env [item "zzz" "x"; item "a" "x"] 1 false
    (world storage.Absent [])
  = (Ok (enriched env [item "zzz" "x"; item "a" "x"],
         enriched_ids env [item "zzz" "x"; item "a" "x"]),
     mkWorld (source (world storage.Absent [])) (disk (world storage.Absent []))
             (anki (world storage.Absent []))
             (trace (world storage.Absent []) ++
              (EvProcess <$> [item "zzz" "x"; item "a" "x"]))).
Proof.
  apply (process_new_favorites_returns_enriched env [item "zzz" "x"; item "a" "x"] 1
           (world storage.Absent [])).
  - discriminate.
  - intros it Hit. apply elem_of_cons in Hit as [-> | Hit]; [reflexivity|].
    apply list_elem_of_singleton in Hit. rewrite Hit. reflexivity.
Defined.

Lemma add_notes_credits_by_position_witness :
  _add_notes_to_anki env [sentence_note "b"] [item "a" "x"; item "b" "y"] ∅
    (world storage.Absent [])
  = (match (storage.save_ids
              (elements
                 (list_to_set
                    (item_id <$> credited env [item "a" "x"; item "b" "y"]
                                   [sentence_note "b"]) ∪ (∅ : gset string)))
              (disk (world storage.Absent []))).1 with
     | Ok _ => Ok (credited env [item "a" "x"; item "b" "y"] [sentence_note "b"])
     | Raise e => Raise e
     end,
     mkWorld (source (world storage.Absent []))
       (storage.save_ids
          (elements
             (list_to_set
                (item_id <$> credited env [item "a" "x"; item "b" "y"]
                               [sentence_note "b"]) ∪ (∅ : gset string)))
          (disk (world storage.Absent []))).2
       (with_notes env [sentence_note "b"]
          (with_deck (sentence_deck env)
             (with_deck (word_deck env) (anki (world storage.Absent [])))))
       (trace (world storage.Absent []) ++
        [ensure_word env; ensure_sentence env] ++
        (EvAddNote <$> [sentence_note "b"]) ++
        [EvSaveIds
           (list_to_set
              (item_id <$> credited env [item "a" "x"; item "b" "y"]
                             [sentence_note "b"]) ∪ ∅)])).
Proof.
  apply (add_notes_credits_by_position env [sentence_note "b"]
           [item "a" "x"; item "b" "y"] ∅ (world storage.Absent []) JNull JNull).
  - simpl. lia.
  - reflexivity.
  - reflexivity.
Defined.

Lemma add_notes_overflow_skips_the_save_witness :
  _add_notes_to_anki env [sentence_note "a"; sentence_note "b"] [item "a" "x"] ∅
    (world storage.Absent [])
  = (Raise IndexError,
     mkWorld (source (world storage.Absent [])) (disk (world storage.Absent []))
       (with_notes env
          (take (length [item "a" "x"]) [sentence_note "a"; sentence_note "b"])
          (with_deck (sentence_deck env)
             (with_deck (word_deck env) (anki (world storage.Absent [])))))
       (trace (world storage.Absent []) ++
        [ensure_word env; ensure_sentence env] ++
        (EvAddNote <$> take (length [item "a" "x"])
                         [sentence_note "a"; sentence_note "b"]))).
Proof.
  apply (add_notes_overflow_skips_the_save env [sentence_note "a"; sentence_note "b"]
           [item "a" "x"] ∅ (world storage.Absent []) JNull JNull).
  - simpl. lia.
  - reflexivity.
  - reflexivity.
Defined.

Lemma empty_fetch_ends_the_pass_witness :
  run_once env 10 false false nothing_readable
  = (Ok tt, log (EvFetch 10) (log EvLoadIds nothing_readable)).
Proof.
  apply (empty_fetch_ends_the_pass env 10 false nothing_readable).
  - reflexivity.
  - vm_compute. reflexivity.
Defined.

Lemma candidates_one_new :
  candidates env 10 false
    (world storage.Absent [RowOk "hello" "konnichiwa"; RowOk "zzz" "x"])
  = [item "hello" "konnichiwa"; item "zzz" "x"].
Proof. vm_compute. reflexivity. Qed.

Lemma healthy_pass_returns_witness :
  (run_once env 10 false false
     (world storage.Absent [RowOk "hello" "konnichiwa"; RowOk "zzz" "x"])).1 = Ok tt.
Proof.
  apply (healthy_pass_returns env 10 false false
           (world storage.Absent [RowOk "hello" "konnichiwa"; RowOk "zzz" "x"])).
  - discriminate.
  - reflexivity.
  - discriminate.
  - intros it Hit. rewrite candidates_one_new in Hit.
    apply elem_of_cons in Hit as [-> | Hit]; [reflexivity|].
    apply list_elem_of_singleton in Hit. rewrite Hit. reflexivity.
  - reflexivity.
  - reflexivity.
Defined.

Lemma candidates_without_anki :
  candidates env_without_anki 10 false one_new = [item "hello" "konnichiwa"].
Proof. vm_compute. reflexivity. Qed.

Lemma unreachable_anki_aborts_before_writing_witness :
  run_once env_without_anki 10 false false one_new
  = (Raise RequestException,
     mkWorld (cleaned env_without_anki 10 false one_new) (disk one_new) (anki one_new)
       (prelude env_without_anki 10 false one_new ++
        (EvProcess <$> candidates env_without_anki 10 false one_new) ++
        [ensure_word env_without_anki])).
Proof.
  apply (unreachable_anki_aborts_before_writing env_without_anki 10 one_new).
  - discriminate.
  - intros it Hit. rewrite candidates_without_anki in Hit.
    apply list_elem_of_singleton in Hit. rewrite Hit. reflexivity.
  - vm_compute. discriminate.
  - reflexivity.
Defined.

Lemma candidates_one_failing :
  candidates env 10 false one_failing = [item "zzz" "x"].
Proof. vm_compute. reflexivity. Qed.

Lemma failed_enrichments_leave_everything_witness :
  run_once env 10 false false one_failing
  = (Ok tt,
     mkWorld (cleaned env 10 false one_failing) (disk one_failing) (anki one_failing)
             (prelude env 10 false one_failing ++
              (EvProcess <$> candidates env 10 false one_failing))).
Proof.
  apply (failed_enrichments_leave_everything env 10 false one_failing).
  - reflexivity.
  - discriminate.
  - intros it Hit. rewrite candidates_one_failing in Hit.
    apply list_elem_of_singleton in Hit. rewrite Hit. reflexivity.
Defined.

Lemma unbound_response_aborts_the_pass_witness :
  run_once env_service_decode_error 10 false false
    (world storage.Absent [RowOk "a" "x"; RowOk "b" "y"])
  = (Raise UnboundLocalError,
     log (EvProcess (item "a" "x"))
       (prologue env_service_decode_error 10 false
          (world storage.Absent [RowOk "a" "x"; RowOk "b" "y"])).2).
Proof.
  apply (unbound_response_aborts_the_pass env_service_decode_error 10 false false
           (world storage.Absent [RowOk "a" "x"; RowOk "b" "y"])
           (item "a" "x") [item "b" "y"]).
  - discriminate.
  - vm_compute. reflexivity.
  - discriminate.
  - reflexivity.
Defined.

Lemma dry_run_without_stale_items_is_pure_witness :
  source (run_once env 10 true false nothing_stale).2 = source nothing_stale /\
  disk (run_once env 10 true false nothing_stale).2 = disk nothing_stale /\
  anki (run_once env 10 true false nothing_stale).2 = anki nothing_stale.
Proof.
  apply (dry_run_without_stale_items_is_pure env 10 false nothing_stale).
  right. vm_compute. reflexivity.
Defined.

Lemma rejected_notes_commit_nothing_witness :
  source (run_once env_rejecting 10 false false one_new).2
  = cleaned env_rejecting 10 false one_new /\
  notes (anki (run_once env_rejecting 10 false false one_new).2)
  = notes (anki one_new) /\
  (known_ids env_rejecting (run_once env_rejecting 10 false false one_new).2
   = known_ids env_rejecting one_new \/
   (storage.writable (disk one_new) = false /\ storage.torn (disk one_new) = true /\
    known_ids env_rejecting (run_once env_rejecting 10 false false one_new).2 = ∅)).
Proof.
  apply (rejected_notes_commit_nothing env_rejecting 10 false false one_new).
  intros note. reflexivity.
Defined.
End ExtraWitnesses.
